(** * git-bstatus: a shallow embedding of [src/main.rs] and [src/utils.rs]

    The git repository is the black-box data source of the program: it is
    modelled by the data it hands out (local branches, remote HEAD
    references, commits) and by the result of the ahead/behind graph query.
    Fallible calls ([?]) return in a small result monad; a failed [assert!]
    or [unwrap] is the error [Panic]. *)

From Stdlib Require Import List String Ascii ZArith NArith Lia Bool.
From Stdlib Require Import Sorting.Permutation Sorting.Sorted.
From Stdlib Require Import Numbers.DecimalN.
From Stdlib Require Numbers.DecimalFacts.
Import ListNotations.

Open Scope string_scope.

(* ------------------------------------------------------------------ *)
(** ** Errors and the result monad *)

Inductive Error :=
  | GitError            (* an error returned by git2 and propagated by [?] *)
  | DefaultNotFound     (* "Couldn't find default branch" *)
  | Panic.              (* a failed [assert!] *)

Inductive result (A : Type) :=
  | Ok : A -> result A
  | Err : Error -> result A.
Arguments Ok {A} _.
Arguments Err {A} _.

Definition bind {A B} (m : result A) (k : A -> result B) : result B :=
  match m with
  | Ok a => k a
  | Err e => Err e
  end.

Notation "'let*' x ':=' m 'in' k" := (bind m (fun x => k))
  (at level 200, x name, m at level 100, k at level 200).

(** [o?] on a git2 call modelled as an option: [None] is the git error. *)
Definition try {A} (o : option A) : result A :=
  match o with
  | Some a => Ok a
  | None => Err GitError
  end.

(* ------------------------------------------------------------------ *)
(** ** [utils.rs]: decimal printing of a [u64] ([format!("{}", n)]) *)

Definition digit_char (d : nat) : ascii := ascii_of_nat (48 + d).

Fixpoint string_of_uint (u : Decimal.uint) : string :=
  match u with
  | Decimal.Nil => EmptyString
  | Decimal.D0 u => String (digit_char 0) (string_of_uint u)
  | Decimal.D1 u => String (digit_char 1) (string_of_uint u)
  | Decimal.D2 u => String (digit_char 2) (string_of_uint u)
  | Decimal.D3 u => String (digit_char 3) (string_of_uint u)
  | Decimal.D4 u => String (digit_char 4) (string_of_uint u)
  | Decimal.D5 u => String (digit_char 5) (string_of_uint u)
  | Decimal.D6 u => String (digit_char 6) (string_of_uint u)
  | Decimal.D7 u => String (digit_char 7) (string_of_uint u)
  | Decimal.D8 u => String (digit_char 8) (string_of_uint u)
  | Decimal.D9 u => String (digit_char 9) (string_of_uint u)
  end.

Definition string_of_N (n : N) : string := string_of_uint (N.to_uint n).

(** ** [utils.rs]: [epoch_to_relative_str] and [plural] *)

Definition SECONDS_PER_MINUTE : N := 60.
Definition MINUTES_PER_HOUR : N := 60.
Definition HOURS_PER_DAY : N := 24.
Definition DAYS_PER_WEEK : N := 7.
Definition DAYS_PER_MONTH : N := 30.
Definition MONTHS_PER_YEAR : N := 12.

(** [format!("{} {}{}", n, s, if n == 1 { "" } else { "s" })] *)
Definition plural (s : string) (n : N) : string :=
  string_of_N n ++ " " ++ s ++ (if (n =? 1)%N then EmptyString else "s").

(** The clock read [time::SystemTime::now()] is the argument [now].
    Both values are [u64]; [now - timestamp] is only computed when
    [timestamp < now], so it never wraps. *)
Definition epoch_to_relative_str (now timestamp : N) : string :=
  if (now <=? timestamp)%N then "now" else
  let secs := (now - timestamp)%N in
  if (secs <? SECONDS_PER_MINUTE)%N then plural "sec" secs else
  let mins := (secs / SECONDS_PER_MINUTE)%N in
  if (mins <? MINUTES_PER_HOUR)%N then plural "min" mins else
  let hours := (mins / MINUTES_PER_HOUR)%N in
  if (hours <? HOURS_PER_DAY)%N then plural "hour" hours else
  let days := (hours / HOURS_PER_DAY)%N in
  if (days <? DAYS_PER_WEEK)%N then plural "day" days else
  if (days <? DAYS_PER_MONTH)%N then plural "week" (days / DAYS_PER_WEEK) else
  let months := (days / DAYS_PER_MONTH)%N in
  if (months <? MONTHS_PER_YEAR)%N then plural "month" months else
  let years := (months / MONTHS_PER_YEAR)%N in
  plural "year" years.

(** *** The age units as the spec describes them

    An age in seconds is shown in the unit whose range contains it; the
    ranges are bounded by 60 s, 60 min, 24 h, 7 days, 30 days and
    12 months (a month being 30 days). *)
Inductive TimeUnit := USec | UMin | UHour | UDay | UWeek | UMonth | UYear.

Definition unit_name (u : TimeUnit) : string :=
  match u with
  | USec => "sec" | UMin => "min" | UHour => "hour" | UDay => "day"
  | UWeek => "week" | UMonth => "month" | UYear => "year"
  end.

(** length of one unit, in seconds *)
Definition unit_secs (u : TimeUnit) : N :=
  match u with
  | USec => 1 | UMin => 60 | UHour => 3600 | UDay => 86400
  | UWeek => 604800 | UMonth => 2592000 | UYear => 31104000
  end%N.

(** the next unit's threshold, in seconds (none above years) *)
Definition unit_limit (u : TimeUnit) : option N :=
  match u with
  | USec => Some 60 | UMin => Some 3600 | UHour => Some 86400
  | UDay => Some 604800 | UWeek => Some 2592000 | UMonth => Some 31104000
  | UYear => None
  end%N.

(** [ago] expressed in [u] is at least 1 and below the next threshold *)
Definition unit_fits (u : TimeUnit) (ago : N) : Prop :=
  (1 <= ago / unit_secs u)%N /\
  match unit_limit u with Some l => (ago < l)%N | None => True end.

(** "<count> <unit>", with an "s" iff the count is not 1 *)
Definition relative_label (u : TimeUnit) (ago : N) : string :=
  let count := (ago / unit_secs u)%N in
  string_of_N count ++ " " ++ unit_name u ++
  (if (count =? 1)%N then EmptyString else "s").

(* ------------------------------------------------------------------ *)
(** ** The repository data source (git2) *)

Abbreviation Oid := N.

Record Commit := mkCommit {
  commit_id : Oid;
  commit_seconds : Z;        (* [commit.time().seconds()], an [i64] *)
  commit_summary : string;   (* [commit.summary().unwrap()] *)
}.

(** [branch.upstream()] when it is [Ok(b)]: [b.name()] and [b]'s tip
    ([None] when [peel_to_commit] fails). *)
Record Upstream := mkUpstream {
  up_name : string;
  up_tip : option Commit;
}.

Record Branch := mkBranch {
  branch_name : string;
  branch_is_head : bool;
  branch_tip : option Commit;          (* [branch.get().peel_to_commit()] *)
  branch_upstream : option Upstream;   (* [None]: [branch.upstream()] is [Err] *)
}.

(** An item of [repo.references_glob("refs/remotes/<remote>/HEAD")]. *)
Record RemoteRef := mkRemoteRef {
  ref_name : string;
  ref_is_remote : bool;
  ref_resolved : option string;   (* name of [r.resolve()]; [None] for [Err] *)
}.

Record Repo := mkRepo {
  (** [repo.branches(Some(BranchType::Local))], in enumeration order *)
  local_branches : list Branch;
  (** the HEAD glob, in enumeration order; [None] is an [Err] item.  A
      failing glob call is skipped by [if let Ok(..)], like an empty list. *)
  remote_heads : list (option RemoteRef);
  (** [repo.graph_ahead_behind(local, upstream)]; [None] for [Err] *)
  graph_ahead_behind : Oid -> Oid -> option (nat * nat);
}.

(** [repo.find_branch(name, BranchType::Local)] *)
Definition find_branch (repo : Repo) (name : string) : option Branch :=
  find (fun b => String.eqb (branch_name b) name) (local_branches repo).

(** [b.get().peel_to_commit()?.id()] *)
Definition peel_id (b : Branch) : result Oid :=
  let* c := try (branch_tip b) in Ok (commit_id c).

(* ------------------------------------------------------------------ *)
(** ** [find_default_sha] *)

(** The loop over the remote HEAD references: remember the last remote
    one, stop at the first whose name starts with "refs/remotes/origin". *)
Fixpoint select_head_ref (refs : list (option RemoteRef))
    (head_ref : option RemoteRef) : result (option RemoteRef) :=
  match refs with
  | [] => Ok head_ref
  | maybe_ref :: rest =>
      let* r := try maybe_ref in
      if negb (ref_is_remote r) then select_head_ref rest head_ref
      else
        let is_origin := String.prefix "refs/remotes/origin" (ref_name r) in
        if is_origin then Ok (Some r) else select_head_ref rest (Some r)
  end.

(** [s.splitn(2, c)] collected into a vector *)
Fixpoint split_once (c : ascii) (s : string) : option (string * string) :=
  match s with
  | EmptyString => None
  | String x s' =>
      if Ascii.eqb x c then Some (EmptyString, s')
      else match split_once c s' with
           | Some (a, b) => Some (String x a, b)
           | None => None
           end
  end.

Definition splitn2 (c : ascii) (s : string) : list string :=
  match split_once c s with
  | Some (a, b) => [a; b]
  | None => [s]
  end.

Definition REMOTES_PREFIX_LEN : nat := String.length "refs/remotes/".

Definition fallback_default (repo : Repo) : result Oid :=
  match find_branch repo "master" with
  | Some b => peel_id b
  | None =>
      match find_branch repo "main" with
      | Some b => peel_id b
      | None => Err DefaultNotFound
      end
  end.

Definition find_default_sha (repo : Repo) : result Oid :=
  let* head_ref := select_head_ref (remote_heads repo) None in
  match head_ref with
  | Some hr =>
      let* name := try (ref_resolved hr) in
      (* [&name["refs/remotes/".len()..]] panics on a shorter name *)
      if (String.length name <? REMOTES_PREFIX_LEN)%nat then Err Panic else
      let remote_and_ref :=
        substring REMOTES_PREFIX_LEN (String.length name - REMOTES_PREFIX_LEN) name in
      match splitn2 "/" remote_and_ref with
      | [_; branch] =>
          match find_branch repo branch with
          | Some b => peel_id b
          | None => fallback_default repo
          end
      | _ => Err Panic   (* [assert!(v.len() == 2)] *)
      end
  | None => fallback_default repo
  end.

(* ------------------------------------------------------------------ *)
(** ** [scan_branches] *)

Inductive BranchFilter := Recent | All | Merged | Unmerged.

Definition BranchFilter_eqb (f g : BranchFilter) : bool :=
  match f, g with
  | Recent, Recent | All, All | Merged, Merged | Unmerged, Unmerged => true
  | _, _ => false
  end.

Record BranchInfo := mkBranchInfo {
  name : string;
  active : bool;
  timestamp : N;           (* [u64] *)
  timestamp_rel : string;
  summary : string;
  ahead : nat;
  oid : Oid;
  upstream : option string;
}.

Record BranchesInfo := mkBranchesInfo {
  branches : list BranchInfo;
  n_merged : nat;
  n_unmerged : nat;
}.

Definition RECENT_N : nat := 5.
Definition U64_MAX : N := 2 ^ 64 - 1.

(** [name.contains(p)] on strings *)
Fixpoint contains (s p : string) : bool :=
  String.prefix p s ||
  match s with
  | EmptyString => false
  | String _ s' => contains s' p
  end.

(** [if let Some(ref patterns) = maybe_patterns { if patterns.iter().all(|&p|
    !name.contains(p)) { continue; } }] *)
Definition name_skipped (maybe_patterns : option (list string)) (name : string) : bool :=
  match maybe_patterns with
  | Some patterns => forallb (fun p => negb (contains name p)) patterns
  | None => false
  end.

(** [matches.values_of("BRANCH").map(|values| values.collect())]: clap gives
    [None] when no BRANCH argument is on the command line. *)
Definition maybe_patterns_of_args (args : list string) : option (list string) :=
  match args with
  | [] => None
  | _ => Some args
  end.

(** the upstream name and the sha to compare against *)
Definition upstream_of (default_sha : Oid) (branch : Branch)
    : result (option string * Oid) :=
  match branch_upstream branch with
  | Some b => let* c := try (up_tip b) in Ok (Some (up_name b), commit_id c)
  | None => Ok (None, default_sha)
  end.

(** [x as u64] on an [i64] *)
Definition as_u64 (x : Z) : N := Z.to_N (x mod 2 ^ 64).

Definition ScanState : Type := (nat * nat * list BranchInfo)%type.

(** [(filter == BranchFilter::Merged && !merged)
     || (filter == BranchFilter::Unmerged && merged)] *)
Definition merge_filtered (filter : BranchFilter) (merged : bool) : bool :=
  (BranchFilter_eqb filter Merged && negb merged)
  || (BranchFilter_eqb filter Unmerged && merged).

(** the [BranchInfo { .. }] pushed for a branch; [timestamp] is
    [commit.time().seconds() as u64] *)
Definition branch_info (now : N) (branch : Branch) (commit : Commit)
    (ahead : nat) (upstream : option string) : BranchInfo :=
  let timestamp := as_u64 (commit_seconds commit) in
  mkBranchInfo (branch_name branch) (branch_is_head branch) timestamp
    (epoch_to_relative_str now timestamp) (commit_summary commit) ahead
    (commit_id commit) upstream.

(** One iteration of the [for branch in repo.branches(..)] loop. *)
Definition scan_step (repo : Repo) (maybe_patterns : option (list string))
    (filter : BranchFilter) (now : N) (default_sha : Oid)
    (st : ScanState) (branch : Branch) : result ScanState :=
  let '(n_merged, n_unmerged, branches) := st in
  let name := branch_name branch in
  if name_skipped maybe_patterns name then Ok st else
  let* commit := try (branch_tip branch) in
  let oid := commit_id commit in
  let* up := upstream_of default_sha branch in
  let '(upstream, upstream_sha) := up in
  let* ab := try (graph_ahead_behind repo oid upstream_sha) in
  let '(ahead, _) := ab in
  let merged := Nat.eqb ahead 0 in
  let n_merged := if merged then S n_merged else n_merged in
  let n_unmerged := if merged then n_unmerged else S n_unmerged in
  if merge_filtered filter merged then Ok (n_merged, n_unmerged, branches) else
  (* [assert!(commit.time().seconds() >= 0)] *)
  if negb (0 <=? commit_seconds commit)%Z then Err Panic else
  Ok (n_merged, n_unmerged,
      (branches ++ [branch_info now branch commit ahead upstream])%list).

Fixpoint scan_loop (repo : Repo) (maybe_patterns : option (list string))
    (filter : BranchFilter) (now : N) (default_sha : Oid)
    (st : ScanState) (bs : list Branch) : result ScanState :=
  match bs with
  | [] => Ok st
  | b :: bs' =>
      let* st' := scan_step repo maybe_patterns filter now default_sha st b in
      scan_loop repo maybe_patterns filter now default_sha st' bs'
  end.

(** [slice::sort_unstable_by_key]: its contract is only that the result is
    a permutation of the input in non-decreasing key order; equal keys may
    end in any order.  The scan is stated for any sort with that contract. *)
Definition SortByKey : Type := (BranchInfo -> N) -> list BranchInfo -> list BranchInfo.

Definition sort_unstable_contract (sort : SortByKey) : Prop :=
  forall key l, Permutation l (sort key l) /\
           Sorted (fun a b => (key a <= key b)%N) (sort key l).

(** [|b| std::u64::MAX - b.timestamp] *)
Definition sort_key (b : BranchInfo) : N := (U64_MAX - timestamp b)%N.

(** Lines 195-204: sort, truncate (Recent only), reverse. *)
Definition rank_branches (sort_unstable_by_key : SortByKey) (filter : BranchFilter)
    (reverse : bool) (branches : list BranchInfo) : list BranchInfo :=
  let branches := sort_unstable_by_key sort_key branches in
  let branches :=
    if BranchFilter_eqb filter Recent then firstn RECENT_N branches else branches in
  if reverse then rev branches else branches.

(** [scan_branches] after its first line [let default_sha = find_default_sha(repo)?;] *)
Definition scan_with_default (sort_unstable_by_key : SortByKey) (now : N)
    (repo : Repo) (maybe_patterns : option (list string))
    (filter : BranchFilter) (reverse : bool) (default_sha : Oid)
    : result BranchesInfo :=
  let* st := scan_loop repo maybe_patterns filter now default_sha (0, 0, [])%nat
               (local_branches repo) in
  let '(n_merged, n_unmerged, branches) := st in
  Ok (mkBranchesInfo (rank_branches sort_unstable_by_key filter reverse branches)
        n_merged n_unmerged).

Definition scan_branches (sort_unstable_by_key : SortByKey) (now : N)
    (repo : Repo) (maybe_patterns : option (list string))
    (filter : BranchFilter) (reverse : bool) : result BranchesInfo :=
  let* default_sha := find_default_sha repo in
  scan_with_default sort_unstable_by_key now repo maybe_patterns filter reverse
    default_sha.

(** ** Derived notions used in the statements *)

(** the local branches that pass the name filter, in enumeration order *)
Definition name_kept (maybe_patterns : option (list string)) (bs : list Branch)
    : list Branch :=
  List.filter (fun b => negb (name_skipped maybe_patterns (branch_name b))) bs.

(** the ahead count the loop computes for a branch *)
Definition branch_ahead (repo : Repo) (default_sha : Oid) (b : Branch) : result nat :=
  let* commit := try (branch_tip b) in
  let* up := upstream_of default_sha b in
  let* ab := try (graph_ahead_behind repo (commit_id commit) (snd up)) in
  Ok (fst ab).

Definition count_merged (aheads : list nat) : nat :=
  List.length (List.filter (fun a => Nat.eqb a 0) aheads).
Definition count_unmerged (aheads : list nat) : nat :=
  List.length (List.filter (fun a => negb (Nat.eqb a 0)) aheads).

(** ** Two sorts with the [sort_unstable_by_key] contract

    Insertion sort; [before] decides whether the inserted element goes in
    front of an element with the given key.  With [N.leb] it is stable, with
    [N.ltb] it puts each element after the later ones of equal key. *)
Fixpoint insert_by (before : N -> N -> bool) (key : BranchInfo -> N)
    (x : BranchInfo) (l : list BranchInfo) : list BranchInfo :=
  match l with
  | [] => [x]
  | y :: t => if before (key x) (key y) then x :: y :: t
              else y :: insert_by before key x t
  end.

Definition insertion_sort_by (before : N -> N -> bool) : SortByKey :=
  fun key l => fold_right (insert_by before key) [] l.

Definition stable_sort : SortByKey := insertion_sort_by N.leb.
Definition ties_flipped_sort : SortByKey := insertion_sort_by N.ltb.

(** [r] is the record the loop builds for branch [b]: [b] passes the name
    and merge-status filters, and every field comes from [b], its tip
    commit and its computed upstream and ahead count. *)
Definition record_of (repo : Repo) (maybe_patterns : option (list string))
    (filter : BranchFilter) (now : N) (default_sha : Oid)
    (b : Branch) (r : BranchInfo) : Prop :=
  name_skipped maybe_patterns (branch_name b) = false /\
  exists c u s a,
    branch_tip b = Some c /\ upstream_of default_sha b = Ok (u, s) /\
    branch_ahead repo default_sha b = Ok a /\
    merge_filtered filter (Nat.eqb a 0) = false /\
    (0 <= commit_seconds c)%Z /\ r = branch_info now b c a u.

(** [out] keeps every pair of equal-timestamp records of [l] in their
    order in [l] *)
Definition preserves_tie_order (l out : list BranchInfo) : Prop :=
  forall i j x y, (i < j)%nat -> nth_error l i = Some x -> nth_error l j = Some y ->
    timestamp x = timestamp y ->
    exists i' j', (i' < j')%nat /\ nth_error out i' = Some x /\ nth_error out j' = Some y.

(* ------------------------------------------------------------------ *)
(** ** Concrete inputs *)

Definition commit_at (id : Oid) (secs : Z) : Commit := mkCommit id secs "change".

(** every ahead/behind query answers (1, 0), except a commit against itself *)
Definition ahead_unless_same (a b : Oid) : option (nat * nat) :=
  Some (if (a =? b)%N then 0 else 1, 0)%nat.

(** One branch, tracking an upstream; no remote HEAD, no master or main. *)
Definition repo_all_upstream : Repo :=
  mkRepo [mkBranch "feature" true (Some (commit_at 7 100))
            (Some (mkUpstream "origin/feature" (Some (commit_at 7 100))))]
         [] ahead_unless_same.

Definition remote_head (remote target : string) : option RemoteRef :=
  Some (mkRemoteRef ("refs/remotes/" ++ remote ++ "/HEAD") true
          (Some ("refs/remotes/" ++ remote ++ "/" ++ target))).

Definition local_dev : Branch := mkBranch "dev" false (Some (commit_at 1 100)) None.
Definition local_main : Branch := mkBranch "main" true (Some (commit_at 2 200)) None.

(** Remotes origin2 (HEAD -> dev) and origin (HEAD -> main), in that order. *)
Definition repo_origin2_first : Repo :=
  mkRepo [local_dev; local_main]
         [remote_head "origin2" "dev"; remote_head "origin" "main"] ahead_unless_same.

(** The same remotes enumerated the other way round. *)
Definition repo_origin_first : Repo :=
  mkRepo [local_dev; local_main]
         [remote_head "origin" "main"; remote_head "origin2" "dev"] ahead_unless_same.

(** Remotes origin2 (HEAD -> dev) and upstream (HEAD -> main); no origin. *)
Definition repo_origin2_upstream : Repo :=
  mkRepo [local_dev; local_main]
         [remote_head "origin2" "dev"; remote_head "upstream" "main"] ahead_unless_same.

(** A master branch and an unmerged branch whose tip has a negative time. *)
Definition repo_negative_time : Repo :=
  mkRepo [mkBranch "master" true (Some (commit_at 1 50)) None;
          mkBranch "topic" false (Some (commit_at 2 (-5))) None]
         [] ahead_unless_same.

(** Two records with the same timestamp. *)
Definition tie_a : BranchInfo := mkBranchInfo "a" false 10 "now" "one" 0 1 None.
Definition tie_b : BranchInfo := mkBranchInfo "b" false 10 "now" "two" 0 2 None.


(* ------------------------------------------------------------------ *)
(** ** [utils.rs]: [count_digits]

    The [while n > 0] loop runs once per decimal digit; it is given
    [log2 n + 1] rounds of fuel, at least the number of its iterations. *)
Fixpoint count_digits_loop (fuel : nat) (n i : N) : N :=
  match fuel with
  | O => i
  | S fuel' =>
      if (0 <? n)%N then count_digits_loop fuel' (n / 10) (i + 1) else i
  end.

Definition count_digits (n : N) : N :=
  if (n <=? 9)%N then 1
  else if (n <=? 99)%N then 2
  else count_digits_loop (S (N.to_nat (N.log2 n))) n 0.

(* ------------------------------------------------------------------ *)
(** ** Terminal output

    [std::fmt] padding counts characters ([s.chars().count()]); a Rust
    string is UTF-8, whose characters start at every byte that is not a
    continuation byte [0b10xxxxxx]. *)
Definition is_continuation (c : ascii) : bool :=
  (128 <=? nat_of_ascii c)%nat && (nat_of_ascii c <? 192)%nat.

Fixpoint char_count (s : string) : nat :=
  match s with
  | EmptyString => 0
  | String c s' => (if is_continuation c then 0 else 1) + char_count s'
  end.

Fixpoint spaces (k : nat) : string :=
  match k with
  | O => EmptyString
  | S k' => String " " (spaces k')
  end.

(** [{:width$}] on a string: left-aligned, filled with spaces *)
Definition pad_left_aligned (width : nat) (s : string) : string :=
  s ++ spaces (width - char_count s).

(** [{:>width$}] on a string *)
Definition pad_right_aligned (width : nat) (s : string) : string :=
  spaces (width - char_count s) ++ s.

(** [{:+width$}] on a [usize]: the sign and the digits, right-aligned *)
Definition fmt_plus_width (width : nat) (n : nat) : string :=
  let s := "+" ++ string_of_N (N.of_nat n) in
  spaces (width - String.length s) ++ s.

(** ansi_term: [Colour::Green.prefix()] / [.suffix()] and the empty
    prefix and suffix of [Style::default()] *)
Definition ESC : ascii := ascii_of_nat 27.
Definition green_prefix : string := String ESC "[32m".
Definition green_suffix : string := String ESC "[0m".
Definition inert_prefix : string := EmptyString.
Definition inert_suffix : string := EmptyString.

(** The lowercase hexadecimal form of an [Oid] (20 bytes, 40 digits), and
    [{:.8}] on it: its first 8 characters. *)
Definition hex_char (d : N) : ascii :=
  if (d <? 10)%N then ascii_of_N (48 + d) else ascii_of_N (87 + d).

Fixpoint hex_digits (k : nat) (n : N) (acc : string) : string :=
  match k with
  | O => acc
  | S k' => hex_digits k' (n / 16) (String (hex_char (n mod 16)) acc)
  end.

Definition oid_to_hex (o : Oid) : string := hex_digits 40 o EmptyString.
Definition oid_short (o : Oid) : string := substring 0 8 (oid_to_hex o).

(** What [print_branches] asks of the repository when it lists commits:
    [repo.revwalk()?], [set_sorting(TOPOLOGICAL)?] and [push(oid)?]
    together ([None] for an error), then the items of the walk ([None] for
    an [Err] item); and [repo.find_commit(oid)?] with the commit's
    [summary()] ([None] when it has none, which [unwrap] turns into a
    panic). *)
Record History := mkHistory {
  revwalk_from : Oid -> option (list (option Oid));
  find_commit : Oid -> option (option string);
}.

(** Printed output is the list of lines written to stdout: each
    [println!] ends a line, and [print!] adds to the current one.  An
    error ends the function; the lines are those of a run that succeeds. *)

(** ** [print_branches] *)

(** [max_name_len], [max_timestamp_len] and [max_ahead_len]; the [max()]
    of a non-empty iterator is [list_max] *)
Definition column_widths (branches : list BranchInfo) : nat * nat * nat :=
  (list_max (map (fun b => String.length (name b)) branches),
   list_max (map (fun b => String.length (timestamp_rel b)) branches),
   N.to_nat (count_digits (N.of_nat (list_max (map ahead branches))))).

(** the first [print!] of the loop body *)
Definition branch_row (tab : bool) (widths : nat * nat * nat) (branch : BranchInfo)
    : string :=
  let '(max_name_len, max_timestamp_len, max_ahead_len) := widths in
  let star := if active branch then "*" else " " in
  let star_width := if tab then 4 else 1 in
  let bp := if active branch then green_prefix else inert_prefix in
  let bs := if active branch then green_suffix else inert_suffix in
  pad_right_aligned star_width star ++ " " ++ bp
  ++ pad_left_aligned max_name_len (name branch) ++ bs ++ "  "
  ++ pad_right_aligned max_timestamp_len (timestamp_rel branch) ++ " "
  ++ green_prefix ++ fmt_plus_width (max_ahead_len + 1) (ahead branch)
  ++ green_suffix.

(** the second [print!], when the branch has an upstream *)
Definition upstream_part (branch : BranchInfo) : string :=
  match upstream branch with
  | Some b => " " ++ green_prefix ++ "(" ++ b ++ ")" ++ green_suffix
  | None => EmptyString
  end.

(** [println!("    {:.8} {}", oid, summary)] *)
Definition commit_line (o : Oid) (s : string) : string :=
  "    " ++ oid_short o ++ " " ++ s.

(** [for (i, maybe_oid) in revwalk.enumerate() { ..; if i >= branch.ahead
    { break; } }] from index [i] on *)
Fixpoint commit_lines (h : History) (ahead : nat) (i : nat)
    (walk : list (option Oid)) : result (list string) :=
  match walk with
  | [] => Ok []
  | maybe_oid :: rest =>
      let* o := try maybe_oid in
      let* c := try (find_commit h o) in
      match c with
      | None => Err Panic
      | Some s =>
          if (ahead <=? i)%nat then Ok [commit_line o s]
          else let* ls := commit_lines h ahead (S i) rest in
               Ok (commit_line o s :: ls)
      end
  end.

(** the lines printed for one branch *)
Definition branch_lines (h : History) (list_commits tab : bool)
    (widths : nat * nat * nat) (branch : BranchInfo) : result (list string) :=
  let head := branch_row tab widths branch ++ upstream_part branch in
  if negb list_commits then Ok [head ++ " " ++ summary branch]
  else
    let* walk := try (revwalk_from h (oid branch)) in
    let* ls := commit_lines h (ahead branch) 0 walk in
    Ok (head :: ls).

Fixpoint print_rows (h : History) (list_commits tab : bool)
    (widths : nat * nat * nat) (bs : list BranchInfo) : result (list string) :=
  match bs with
  | [] => Ok []
  | b :: rest =>
      let* mine := branch_lines h list_commits tab widths b in
      let* others := print_rows h list_commits tab widths rest in
      Ok (mine ++ others)%list
  end.

Definition print_branches (h : History) (branches : list BranchInfo)
    (list_commits tab : bool) : result (list string) :=
  match branches with
  | [] => Ok []
  | _ => print_rows h list_commits tab (column_widths branches) branches
  end.

Definition print_listing (h : History) (branches : list BranchInfo)
    (commits : bool) : result (list string) :=
  print_branches h branches commits false.

(** ** [print_human] *)

Definition LOCAL_BRANCH_REF_PREFIX : string := "refs/heads/".

(** [repo.head()] when it is [Ok(head)]: [head.is_branch()], [head.name()]
    ([None] when it is not UTF-8) and [head.peel_to_commit()?.id()] *)
Record Head := mkHead {
  head_is_branch : bool;
  head_name : option string;
  head_commit : option Oid;
}.

Definition QUOTE : string := String (ascii_of_nat 34) EmptyString.

(** the lines of the two multi-line [println!] texts *)
Definition human_banner : list string :=
  ["Recently active branches:";
   "  (use " ++ QUOTE ++ "git bstatus -a" ++ QUOTE ++ " to list all branches)";
   "  (use " ++ QUOTE ++ "git bstatus -v" ++ QUOTE ++ " to list commits)";
   EmptyString].

Definition human_summary (info : BranchesInfo) : list string :=
  [EmptyString;
   "There are " ++ string_of_N (N.of_nat (n_merged info + n_unmerged info))
     ++ " local branches (" ++ string_of_N (N.of_nat (n_merged info))
     ++ " merged, " ++ string_of_N (N.of_nat (n_unmerged info)) ++ " unmerged).";
   "  (use " ++ QUOTE ++ "git bstatus -m" ++ QUOTE ++ " or " ++ QUOTE
     ++ "git bstatus -u" ++ QUOTE ++ " to list them)"].

Definition print_human (head : option Head) (h : History) (info : BranchesInfo)
    : result (list string) :=
  let* head := try head in
  let* first :=
    if head_is_branch head then
      match head_name head with
      | None => Err Panic
      | Some name =>
          if negb (String.prefix LOCAL_BRANCH_REF_PREFIX name) then Err Panic
          else Ok ("On branch " ++
                   substring (String.length LOCAL_BRANCH_REF_PREFIX)
                     (String.length name - String.length LOCAL_BRANCH_REF_PREFIX) name)
      end
    else
      let* c := try (head_commit head) in
      Ok ("HEAD detached at " ++ oid_short c) in
  let* rows :=
    if (List.length (branches info) <? RECENT_N)%nat
    then print_branches h (branches info) false true
    else print_branches h (firstn RECENT_N (branches info)) false true in
  let summary :=
    if (0 <? n_unmerged info)%nat || (1 <? n_merged info)%nat
    then human_summary info else [] in
  Ok (first :: human_banner ++ rows ++ summary)%list.

(** ** [main] and [run] *)

Inductive OutputMode := Human | Listing | ListingCommits | NameOnly.

(** the flags of the command line *)
Record Flags := mkFlags {
  flag_verbose : bool;
  flag_all : bool;
  flag_merged : bool;
  flag_unmerged : bool;
  flag_reverse : bool;
  flag_name_only : bool;
}.

Definition select_filter (m : Flags) : BranchFilter :=
  if flag_all m || (flag_merged m && flag_unmerged m) then All
  else if flag_merged m then Merged
  else if flag_unmerged m then Unmerged
  else Recent.

Definition select_output_mode (m : Flags) (maybe_patterns : option (list string))
    : OutputMode :=
  if flag_verbose m then ListingCommits
  else if flag_name_only m then NameOnly
  else if negb (BranchFilter_eqb (select_filter m) Recent)
          || (match maybe_patterns with None => false | Some _ => true end)
  then Listing
  else Human.

(** [run] once [git2::Repository::discover] has succeeded *)
Definition run (sort_unstable_by_key : SortByKey) (now : N) (repo : Repo)
    (head : option Head) (h : History) (maybe_patterns : option (list string))
    (output_mode : OutputMode) (filter : BranchFilter) (reverse : bool)
    : result (list string) :=
  let* info := scan_branches sort_unstable_by_key now repo maybe_patterns filter reverse in
  match output_mode with
  | Human => print_human head h info
  | NameOnly => Ok (map name (branches info))
  | Listing => print_listing h (branches info) false
  | ListingCommits => print_listing h (branches info) true
  end.

(** [main] from the parsed command line *)
Definition main (sort_unstable_by_key : SortByKey) (now : N) (repo : Repo)
    (head : option Head) (h : History) (m : Flags) (args : list string)
    : result (list string) :=
  let maybe_patterns := maybe_patterns_of_args args in
  let filter := select_filter m in
  let output_mode := select_output_mode m maybe_patterns in
  run sort_unstable_by_key now repo head h maybe_patterns output_mode filter
    (flag_reverse m).

(** No branch and no remote HEAD reference. *)
Definition repo_empty : Repo := mkRepo [] [] ahead_unless_same.

(** Two records to print, one active and one with an upstream. *)
Definition sample_rows : list BranchInfo :=
  [mkBranchInfo "main" true 200 "2 days" "fix" 0 2 None;
   mkBranchInfo "feature" false 100 "13 mins" "wip" 12 1 (Some "origin/feature")].

(** every walk visits the tip, then commits 7 and 5 *)
Definition sample_walk (o : Oid) : list Oid := [o; 7; 5]%N.

Definition sample_history : History :=
  mkHistory (fun o => Some (map Some (sample_walk o))) (fun _ => Some (Some "change")).

Definition sample_head : Head := mkHead true (Some "refs/heads/main") (Some 2%N).

(** [git bstatus -a] *)
Definition flags_all : Flags := mkFlags false true false false false false.

(** Remote HEAD references of remotes upstream and fork, and a tag. *)
Definition refs_no_origin : list RemoteRef :=
  [mkRemoteRef "refs/remotes/upstream/HEAD" true (Some "refs/remotes/upstream/main");
   mkRemoteRef "refs/remotes/fork/HEAD" true (Some "refs/remotes/fork/dev");
   mkRemoteRef "refs/tags/HEAD" false None].

(* ================================================================== *)
(** * Theorems *)

Example relative_90 : epoch_to_relative_str 1000 910 = "1 min".
Proof. reflexivity. Qed.
Example relative_3600 : epoch_to_relative_str 5000 1400 = "1 hour".
Proof. reflexivity. Qed.
Example relative_2s : epoch_to_relative_str 5000 4998 = "2 secs".
Proof. reflexivity. Qed.
Example relative_year : epoch_to_relative_str 100000000 0 = "3 years".
Proof. reflexivity. Qed.

(** ** Decimal strings *)

Fixpoint no_space (s : string) : bool :=
  match s with
  | EmptyString => true
  | String c s' => negb (Ascii.eqb c " ") && no_space s'
  end.

Lemma string_of_uint_no_space (u : Decimal.uint) : no_space (string_of_uint u) = true.
Proof. induction u; simpl; rewrite ?IHu; reflexivity. Qed.

Lemma string_of_uint_inj (u v : Decimal.uint) :
  string_of_uint u = string_of_uint v -> u = v.
Proof.
  revert v; induction u; intros v H; destruct v; simpl in H;
    try discriminate; try reflexivity;
    injection H as H; f_equal; apply IHu; exact H.
Qed.

Lemma string_of_N_inj (m n : N) : string_of_N m = string_of_N n -> m = n.
Proof.
  unfold string_of_N; intros H.
  apply string_of_uint_inj in H.
  rewrite <- (DecimalN.Unsigned.of_to m), <- (DecimalN.Unsigned.of_to n), H.
  reflexivity.
Qed.

(** Two strings split at their first space agree on the part before it. *)
Lemma split_at_space (a b r1 r2 : string) :
  no_space a = true -> no_space b = true ->
  a ++ String " " r1 = b ++ String " " r2 -> a = b /\ r1 = r2.
Proof.
  revert b; induction a as [|c a IH]; intros b Ha Hb H; destruct b as [|d b];
    simpl in *.
  - injection H as H; auto.
  - injection H as Hc _; subst d; discriminate.
  - injection H as Hc _; subst c; discriminate.
  - apply andb_prop in Ha as [_ Ha]; apply andb_prop in Hb as [_ Hb].
    injection H as -> H.
    destruct (IH b Ha Hb H) as [-> ->]; auto.
Qed.

Lemma plural_not_zero_secs (s : string) (n : N) :
  (1 <= n)%N -> plural s n <> "0 secs".
Proof.
  intros Hn H; unfold plural in H.
  change "0 secs" with (string_of_N 0 ++ String " " "secs") in H.
  apply split_at_space in H as [H _];
    try apply string_of_uint_no_space.
  apply string_of_N_inj in H; lia.
Qed.

(** Bound reasoning on [N] with division by constants. *)
Ltac div_lia := zify; Z.to_euclidean_division_equations; lia.

Ltac ltb_cases :=
  repeat match goal with
  | |- context [(?a <? ?b)%N] =>
      destruct (N.ltb_spec a b); try (exfalso; div_lia)
  | |- context [(?a <=? ?b)%N] =>
      destruct (N.leb_spec a b); try (exfalso; div_lia)
  end.

(** The code's branches, once the age is known to be positive. *)
Lemma epoch_to_relative_str_age (now ago : N) :
  (1 <= ago <= now)%N ->
  epoch_to_relative_str now (now - ago) =
  if (ago <? 60)%N then plural "sec" ago else
  if (ago / 60 <? 60)%N then plural "min" (ago / 60) else
  if (ago / 60 / 60 <? 24)%N then plural "hour" (ago / 60 / 60) else
  if (ago / 60 / 60 / 24 <? 7)%N then plural "day" (ago / 60 / 60 / 24) else
  if (ago / 60 / 60 / 24 <? 30)%N then plural "week" (ago / 60 / 60 / 24 / 7) else
  if (ago / 60 / 60 / 24 / 30 <? 12)%N then plural "month" (ago / 60 / 60 / 24 / 30)
  else plural "year" (ago / 60 / 60 / 24 / 30 / 12).
Proof.
  intros H; unfold epoch_to_relative_str.
  destruct (N.leb_spec now (now - ago)); [lia|].
  replace (now - (now - ago))%N with ago by lia.
  reflexivity.
Qed.

(** Claim C7. For every age [ago >= 1] (with [now - ago] the commit
    timestamp), [epoch_to_relative_str] returns "<count> <unit>" where the
    unit is the one whose range contains [ago] (count at least 1 and below
    the next threshold: 60 s, 60 min, 24 h, 7 days, 30 days, 12 months),
    the count is [ago] in that unit, and the unit name takes an "s" iff the
    count is not 1; a timestamp equal to [now] gives "now". *)
Theorem epoch_to_relative_str_units (now ago : N) :
  (ago <= now)%N ->
  epoch_to_relative_str now now = "now" /\
  ((1 <= ago)%N ->
   (exists u, unit_fits u ago) /\
   forall u, unit_fits u ago ->
     epoch_to_relative_str now (now - ago) = relative_label u ago).
Proof.
  intros Hle; split.
  { unfold epoch_to_relative_str; rewrite N.leb_refl; reflexivity. }
  intros H1; split.
  - destruct (N.ltb_spec ago 60); [exists USec|].
    { unfold unit_fits; simpl; rewrite N.div_1_r; lia. }
    destruct (N.ltb_spec ago 3600); [exists UMin; unfold unit_fits; simpl; div_lia|].
    destruct (N.ltb_spec ago 86400); [exists UHour; unfold unit_fits; simpl; div_lia|].
    destruct (N.ltb_spec ago 604800); [exists UDay; unfold unit_fits; simpl; div_lia|].
    destruct (N.ltb_spec ago 2592000); [exists UWeek; unfold unit_fits; simpl; div_lia|].
    destruct (N.ltb_spec ago 31104000); [exists UMonth; unfold unit_fits; simpl; div_lia|].
    exists UYear; unfold unit_fits; simpl; split; [div_lia|exact I].
  - intros u [Hlo Hhi]; rewrite epoch_to_relative_str_age by lia.
    unfold relative_label; destruct u; simpl in Hlo, Hhi |- *; ltb_cases;
      match goal with
      | |- plural _ ?x = string_of_N ?y ++ _ =>
          assert (E : x = y) by div_lia; try rewrite <- E; reflexivity
      end.
Qed.

(** Claim C10. [epoch_to_relative_str] gives "now" for every timestamp at
    or after the current time; for every timestamp strictly in the past the
    label is "<count> <unit>" with count at least 1, so "0 secs" is never
    produced. *)
Theorem epoch_to_relative_str_now_or_positive (now ts : N) :
  ((now <= ts)%N -> epoch_to_relative_str now ts = "now") /\
  ((ts < now)%N ->
   exists unit count, (1 <= count)%N /\
     epoch_to_relative_str now ts = plural unit count) /\
  epoch_to_relative_str now ts <> "0 secs".
Proof.
  assert (Hpast : (ts < now)%N ->
     exists unit count, (1 <= count)%N /\
       epoch_to_relative_str now ts = plural unit count).
  { intros Hlt.
    replace ts with (now - (now - ts))%N by lia.
    rewrite epoch_to_relative_str_age by lia.
    set (ago := (now - ts)%N).
    assert (1 <= ago)%N by (unfold ago; lia).
    ltb_cases; eexists _, _; (split; [|reflexivity]); div_lia. }
  split; [|split; [exact Hpast|]].
  - intros Hge; unfold epoch_to_relative_str.
    destruct (N.leb_spec now ts); [reflexivity|lia].
  - destruct (N.ltb_spec ts now) as [Hlt|Hge].
    + destruct (Hpast Hlt) as (u & c & Hc & ->).
      apply plural_not_zero_secs; exact Hc.
    + unfold epoch_to_relative_str.
      destruct (N.leb_spec now ts); [discriminate|lia].
Qed.

(** ** The insertion sorts satisfy the [sort_unstable_by_key] contract *)

Section InsertionSort.
Variable before : N -> N -> bool.
Hypothesis before_true : forall a b, before a b = true -> (a <= b)%N.
Hypothesis before_false : forall a b, before a b = false -> (b <= a)%N.
Variable key : BranchInfo -> N.

Let R := fun a b => (key a <= key b)%N.

Lemma insert_by_perm (x : BranchInfo) (l : list BranchInfo) :
  Permutation (x :: l) (insert_by before key x l).
Proof.
  induction l as [|y t IH]; simpl; [reflexivity|].
  destruct (before (key x) (key y)); [reflexivity|].
  rewrite perm_swap; constructor; exact IH.
Qed.

Lemma insert_by_hd (x y : BranchInfo) (l : list BranchInfo) :
  R y x -> HdRel R y l -> HdRel R y (insert_by before key x l).
Proof.
  intros Hyx Hl; destruct l as [|z t]; simpl.
  - constructor; exact Hyx.
  - destruct (before (key x) (key z)); constructor; [exact Hyx|].
    inversion Hl; assumption.
Qed.

Lemma insert_by_sorted (x : BranchInfo) (l : list BranchInfo) :
  Sorted R l -> Sorted R (insert_by before key x l).
Proof.
  induction l as [|y t IH]; intros Hs; simpl.
  - repeat constructor.
  - destruct (before (key x) (key y)) eqn:E.
    + constructor; [exact Hs|]. constructor; apply before_true; exact E.
    + apply Sorted_inv in Hs as [Ht Hh].
      constructor; [apply IH; exact Ht|].
      apply insert_by_hd; [apply before_false; exact E|exact Hh].
Qed.

Lemma insertion_sort_by_contract (l : list BranchInfo) :
  Permutation l (insertion_sort_by before key l) /\
  Sorted R (insertion_sort_by before key l).
Proof.
  unfold insertion_sort_by; induction l as [|x t [IHp IHs]]; simpl.
  - split; constructor.
  - split.
    + rewrite <- insert_by_perm; constructor; exact IHp.
    + apply insert_by_sorted; exact IHs.
Qed.
End InsertionSort.

Lemma stable_sort_contract : sort_unstable_contract stable_sort.
Proof.
  intros key l; apply insertion_sort_by_contract.
  - intros a b H; apply N.leb_le; exact H.
  - intros a b H; apply N.leb_gt in H; lia.
Qed.

Lemma ties_flipped_sort_contract : sort_unstable_contract ties_flipped_sort.
Proof.
  intros key l; apply insertion_sort_by_contract.
  - intros a b H; apply N.ltb_lt in H; lia.
  - intros a b H; apply N.ltb_ge in H; exact H.
Qed.

(** ** Inversion of one loop iteration *)

Lemma scan_step_Ok repo pats filter now d nm nu acc b st' :
  scan_step repo pats filter now d (nm, nu, acc) b = Ok st' ->
  (name_skipped pats (branch_name b) = true /\ st' = (nm, nu, acc)) \/
  (name_skipped pats (branch_name b) = false /\
   exists c u s a bh,
     branch_tip b = Some c /\ upstream_of d b = Ok (u, s) /\
     graph_ahead_behind repo (commit_id c) s = Some (a, bh) /\
     let nm' := if Nat.eqb a 0 then S nm else nm in
     let nu' := if Nat.eqb a 0 then nu else S nu in
     if merge_filtered filter (Nat.eqb a 0) then st' = (nm', nu', acc)
     else (0 <= commit_seconds c)%Z /\
          st' = (nm', nu', (acc ++ [branch_info now b c a u])%list)).
Proof.
  unfold scan_step; intros H.
  destruct (name_skipped pats (branch_name b)) eqn:Hn.
  { injection H as <-; left; auto. }
  right; split; [reflexivity|].
  destruct (branch_tip b) as [c|] eqn:Ht; simpl in H; [|discriminate].
  destruct (upstream_of d b) as [[u s]|e] eqn:Hu; simpl in H; [|discriminate].
  destruct (graph_ahead_behind repo (commit_id c) s) as [[a bh]|] eqn:Hg;
    simpl in H; [|discriminate].
  exists c, u, s, a, bh;
    do 3 (split; [first [assumption | reflexivity]|]); simpl.
  destruct (merge_filtered filter (Nat.eqb a 0)).
  - injection H as <-; reflexivity.
  - destruct (0 <=? commit_seconds c)%Z eqn:Hz; simpl in H; [|discriminate].
    injection H as <-; split; [apply Z.leb_le; exact Hz|reflexivity].
Qed.

Lemma branch_ahead_Ok repo d b c u s a bh :
  branch_tip b = Some c -> upstream_of d b = Ok (u, s) ->
  graph_ahead_behind repo (commit_id c) s = Some (a, bh) ->
  branch_ahead repo d b = Ok a.
Proof.
  intros Ht Hu Hg; unfold branch_ahead; rewrite Ht; simpl; rewrite Hu; simpl.
  rewrite Hg; reflexivity.
Qed.

(** ** The loop over the local branches *)

Lemma scan_loop_counts repo pats filter now d bs :
  forall nm nu acc nm' nu' acc',
  scan_loop repo pats filter now d (nm, nu, acc) bs = Ok (nm', nu', acc') ->
  exists aheads,
    Forall2 (fun b a => branch_ahead repo d b = Ok a) (name_kept pats bs) aheads /\
    nm' = (nm + count_merged aheads)%nat /\ nu' = (nu + count_unmerged aheads)%nat.
Proof.
  induction bs as [|b bs IH]; intros nm nu acc nm' nu' acc' H;
    cbn [scan_loop] in H.
  - injection H as <- <- <-; exists []; simpl.
    split; [constructor|]; unfold count_merged, count_unmerged; simpl; lia.
  - destruct (scan_step repo pats filter now d (nm, nu, acc) b)
      as [[[nm1 nu1] acc1]|e] eqn:Hs; cbn [bind] in H; [|discriminate].
    apply IH in H as (aheads & HF & E1 & E2).
    apply scan_step_Ok in Hs
      as [[Hn Est] | [Hn (c & u & s & a & bh & Ht & Hu & Hg & Hst)]].
    + injection Est as -> -> ->; exists aheads.
      unfold name_kept; simpl; rewrite Hn; simpl; auto.
    + exists (a :: aheads); unfold name_kept; simpl; rewrite Hn; simpl.
      split; [constructor; [eapply branch_ahead_Ok; eassumption|exact HF]|].
      unfold count_merged, count_unmerged in *; simpl; cbv zeta in Hst.
      destruct (Nat.eqb a 0); destruct (merge_filtered filter _);
        lazymatch type of Hst with
        | _ /\ _ => destruct Hst as [_ Hst] | _ => idtac end;
        injection Hst as -> -> ->; simpl; lia.
Qed.

Lemma scan_loop_records repo pats filter now d bs :
  forall nm nu acc nm' nu' acc',
  scan_loop repo pats filter now d (nm, nu, acc) bs = Ok (nm', nu', acc') ->
  exists added, acc' = (acc ++ added)%list /\
    Forall (fun r => exists b, In b bs /\ record_of repo pats filter now d b r) added.
Proof.
  induction bs as [|b bs IH]; intros nm nu acc nm' nu' acc' H;
    cbn [scan_loop] in H.
  - injection H as <- <- <-; exists []; rewrite app_nil_r; split; auto.
  - destruct (scan_step repo pats filter now d (nm, nu, acc) b)
      as [[[nm1 nu1] acc1]|e] eqn:Hs; cbn [bind] in H; [|discriminate].
    apply IH in H as (added & -> & HF).
    assert (HF' : Forall (fun r => exists b', In b' (b :: bs) /\
                     record_of repo pats filter now d b' r) added).
    { eapply Forall_impl; [|exact HF]; simpl.
      intros r (b' & Hin & Hr); exists b'; auto. }
    apply scan_step_Ok in Hs
      as [[Hn Est] | [Hn (c & u & s & a & bh & Ht & Hu & Hg & Hst)]].
    + injection Est as -> -> ->; exists added; auto.
    + cbv zeta in Hst; destruct (merge_filtered filter _) eqn:Hm.
      * injection Hst as _ _ ->; exists added; auto.
      * destruct Hst as [Hz Hst]; injection Hst as _ _ ->.
        exists ([branch_info now b c a u] ++ added)%list.
        rewrite app_assoc; split; [reflexivity|].
        constructor; [|exact HF'].
        exists b; split; [left; reflexivity|].
        split; [exact Hn|]; exists c, u, s, a.
        repeat split; try assumption.
        eapply branch_ahead_Ok; eassumption.
Qed.

Lemma scan_loop_complete repo pats filter now d bs :
  forall nm nu acc nm' nu' acc',
  scan_loop repo pats filter now d (nm, nu, acc) bs = Ok (nm', nu', acc') ->
  forall b, In b (name_kept pats bs) ->
  exists c a, branch_tip b = Some c /\ branch_ahead repo d b = Ok a /\
    (merge_filtered filter (Nat.eqb a 0) = false ->
     (0 <= commit_seconds c)%Z /\
     exists u s, upstream_of d b = Ok (u, s) /\ In (branch_info now b c a u) acc').
Proof.
  induction bs as [|b0 bs IH]; intros nm nu acc nm' nu' acc' H b Hb;
    cbn [scan_loop] in H.
  - contradiction.
  - destruct (scan_step repo pats filter now d (nm, nu, acc) b0)
      as [[[nm1 nu1] acc1]|e] eqn:Hs; cbn [bind] in H; [|discriminate].
    unfold name_kept in Hb; simpl in Hb.
    destruct (negb (name_skipped pats (branch_name b0))) eqn:Hn0;
      [destruct Hb as [<- | Hb]|].
    2, 3: eapply IH; [exact H | exact Hb].
    apply negb_true_iff in Hn0.
    pose proof (scan_loop_records _ _ _ _ _ _ _ _ _ _ _ _ H) as (added & -> & _).
    apply scan_step_Ok in Hs
      as [[Hn Est] | [Hn (c & u & s & a & bh & Ht & Hu & Hg & Hst)]];
      [rewrite Hn in Hn0; discriminate|].
    exists c, a; split; [exact Ht|]; split; [eapply branch_ahead_Ok; eassumption|].
    intros Hm; cbv zeta in Hst; rewrite Hm in Hst.
    destruct Hst as [Hz Hst]; injection Hst as _ _ ->.
    split; [exact Hz|]; exists u, s; split; [exact Hu|].
    apply in_or_app; left; apply in_or_app; right; left; reflexivity.
Qed.

Lemma scan_branches_Ok sort now repo pats filter reverse info :
  scan_branches sort now repo pats filter reverse = Ok info ->
  exists d nm nu pre, find_default_sha repo = Ok d /\
    scan_loop repo pats filter now d (0, 0, [])%nat (local_branches repo)
      = Ok (nm, nu, pre) /\
    info = mkBranchesInfo (rank_branches sort filter reverse pre) nm nu.
Proof.
  unfold scan_branches, scan_with_default.
  destruct (find_default_sha repo) as [d|e] eqn:Hd; cbn [bind]; [|discriminate].
  destruct (scan_loop _ _ _ _ _ _ _) as [[[nm nu] pre]|e] eqn:Hl; cbn [bind];
    [|discriminate].
  intros H; injection H as <-; exists d, nm, nu, pre; auto.
Qed.

Lemma count_merged_unmerged (aheads : list nat) :
  (count_merged aheads + count_unmerged aheads)%nat = List.length aheads.
Proof.
  unfold count_merged, count_unmerged.
  induction aheads as [|a t IH]; simpl; [reflexivity|].
  destruct (Nat.eqb a 0); simpl; lia.
Qed.

Lemma in_firstn {A} (n : nat) (x : A) (l : list A) : In x (firstn n l) -> In x l.
Proof.
  intros H; rewrite <- (firstn_skipn n l); apply in_or_app; left; exact H.
Qed.

Lemma rank_branches_incl sort filter reverse l :
  sort_unstable_contract sort -> incl (rank_branches sort filter reverse l) l.
Proof.
  intros Hs r Hr; unfold rank_branches in Hr.
  destruct (Hs sort_key l) as [Hp _].
  apply (Permutation_in r (Permutation_sym Hp)).
  destruct reverse; [apply in_rev in Hr|];
    destruct (BranchFilter_eqb filter Recent); try (apply in_firstn in Hr);
    exact Hr.
Qed.

Lemma as_u64_small (x : Z) : (0 <= x < 2 ^ 64)%Z -> Z.of_N (as_u64 x) = x.
Proof.
  intros H; unfold as_u64; rewrite Z.mod_small by exact H.
  apply Z2N.id; lia.
Qed.

(** Claim C3. When the scan succeeds, the merged and unmerged counters
    cover exactly the branches that pass the name filter: each such branch
    has its ahead count computed, those with ahead count 0 are counted as
    merged and the others as unmerged, whatever the merge-status filter
    later drops; so [n_merged + n_unmerged] is the number of branches that
    pass the name filter.  The counters do not depend on the mode or the
    reverse flag, so truncation and reversal leave them unchanged. *)
Theorem scan_branches_merge_counts sort now repo pats filter reverse info :
  scan_branches sort now repo pats filter reverse = Ok info ->
  exists d aheads, find_default_sha repo = Ok d /\
    Forall2 (fun b a => branch_ahead repo d b = Ok a)
      (name_kept pats (local_branches repo)) aheads /\
    n_merged info = count_merged aheads /\
    n_unmerged info = count_unmerged aheads /\
    (n_merged info + n_unmerged info)%nat
      = List.length (name_kept pats (local_branches repo)).
Proof.
  intros H; apply scan_branches_Ok in H as (d & nm & nu & pre & Hd & Hl & ->).
  apply scan_loop_counts in Hl as (aheads & HF & -> & ->).
  exists d, aheads; simpl; repeat split; try assumption.
  rewrite count_merged_unmerged; symmetry; eapply Forall2_length; exact HF.
Qed.

(** Claim C9. Ranking (sort, truncation, reversal) only selects and orders
    the records the loop built: every record of the result is one of them,
    with all its fields, and each of them is exactly the record built from
    a local branch, its tip commit, upstream and ahead count.  The
    counters of the result are the loop's counters, unchanged. *)
Theorem scan_branches_ranking_frame sort now repo pats filter reverse info :
  sort_unstable_contract sort ->
  scan_branches sort now repo pats filter reverse = Ok info ->
  exists d pre, find_default_sha repo = Ok d /\
    scan_loop repo pats filter now d (0, 0, [])%nat (local_branches repo)
      = Ok (n_merged info, n_unmerged info, pre) /\
    branches info = rank_branches sort filter reverse pre /\
    incl (branches info) pre /\
    Forall (fun r => exists b, In b (local_branches repo) /\
                          record_of repo pats filter now d b r) (branches info).
Proof.
  intros Hs H; apply scan_branches_Ok in H as (d & nm & nu & pre & Hd & Hl & ->).
  exists d, pre; simpl; repeat split; try assumption.
  - apply rank_branches_incl; exact Hs.
  - apply scan_loop_records in Hl as (added & Hpre & HF); simpl in Hpre; subst pre.
    apply incl_Forall with (l1 := added); [apply rank_branches_incl; exact Hs|].
    exact HF.
Qed.

(** Claim C8, as amended. When the scan succeeds, every branch that passes
    the name filter and is not dropped by the merge-status filter has a
    non-negative tip timestamp (a negative one fails [assert!] and aborts
    the scan), and every stored timestamp is the source value, not a
    coerced one (source timestamps are [i64]).  Branches dropped by the
    merge-status filter are not checked. *)
Theorem scan_branches_timestamps sort now repo pats filter reverse info :
  sort_unstable_contract sort ->
  Forall (fun b => forall c, branch_tip b = Some c -> (commit_seconds c < 2 ^ 63)%Z)
    (local_branches repo) ->
  scan_branches sort now repo pats filter reverse = Ok info ->
  exists d, find_default_sha repo = Ok d /\
    (forall b c a, In b (name_kept pats (local_branches repo)) ->
       branch_tip b = Some c -> branch_ahead repo d b = Ok a ->
       merge_filtered filter (Nat.eqb a 0) = false ->
       (0 <= commit_seconds c)%Z) /\
    (forall r, In r (branches info) ->
       exists b c, In b (local_branches repo) /\ branch_tip b = Some c /\
         (0 <= commit_seconds c)%Z /\ Z.of_N (timestamp r) = commit_seconds c).
Proof.
  intros Hs Hi64 H.
  pose proof (scan_branches_ranking_frame _ _ _ _ _ _ _ Hs H)
    as (d & pre & Hd & Hl & _ & _ & HF).
  exists d; split; [exact Hd|]; split.
  - intros b c a Hb Ht Ha Hm.
    destruct (scan_loop_complete _ _ _ _ _ _ _ _ _ _ _ _ Hl b Hb)
      as (c' & a' & Ht' & Ha' & Hrec).
    rewrite Ht in Ht'; injection Ht' as <-; rewrite Ha in Ha'; injection Ha' as <-.
    apply Hrec; exact Hm.
  - intros r Hr; rewrite Forall_forall in HF.
    destruct (HF r Hr) as (b & Hb & _ & c & u & s & a & Ht & _ & _ & _ & Hz & ->).
    exists b, c; repeat split; try assumption.
    rewrite Forall_forall in Hi64; specialize (Hi64 b Hb c Ht).
    simpl; apply as_u64_small; lia.
Qed.

(** ** Default branch resolution *)

Lemma upstream_of_default_unused d d' b :
  branch_upstream b <> None -> upstream_of d b = upstream_of d' b.
Proof.
  unfold upstream_of; destruct (branch_upstream b); [reflexivity|].
  intros H; contradiction.
Qed.

Lemma scan_loop_default_unused repo pats filter now d d' bs :
  Forall (fun b => branch_upstream b <> None) bs ->
  forall st, scan_loop repo pats filter now d st bs
             = scan_loop repo pats filter now d' st bs.
Proof.
  induction 1 as [|b bs Hb _ IH]; intros st; [reflexivity|].
  cbn [scan_loop].
  replace (scan_step repo pats filter now d st b)
    with (scan_step repo pats filter now d' st b).
  - destruct (scan_step repo pats filter now d' st b); cbn [bind];
      [apply IH|reflexivity].
  - unfold scan_step; destruct st as [[nm nu] acc].
    rewrite (upstream_of_default_unused d d' b Hb); reflexivity.
Qed.

(** Claim C1, as amended. [scan_branches] calls [find_default_sha] once,
    first, before looking at any branch: if it fails the scan fails with
    its error, whatever the branches are; if it succeeds the scan goes on
    with its value, which only matters for branches without an upstream:
    when every branch has an upstream the result does not depend on it. *)
Theorem scan_branches_default_eager sort now repo pats filter reverse :
  (forall e, find_default_sha repo = Err e ->
     scan_branches sort now repo pats filter reverse = Err e) /\
  (forall d, find_default_sha repo = Ok d ->
     scan_branches sort now repo pats filter reverse
     = scan_with_default sort now repo pats filter reverse d) /\
  (Forall (fun b => branch_upstream b <> None) (local_branches repo) ->
   forall d d', scan_with_default sort now repo pats filter reverse d
                = scan_with_default sort now repo pats filter reverse d').
Proof.
  unfold scan_branches; split; [|split].
  - intros e He; rewrite He; reflexivity.
  - intros d Hd; rewrite Hd; reflexivity.
  - intros Hall d d'; unfold scan_with_default.
    rewrite (scan_loop_default_unused repo pats filter now d d' _ Hall); reflexivity.
Qed.

(** Claim C1 fails: in a repository whose only branch has an upstream and
    which has no remote HEAD and no master or main branch, the scan fails
    with "Couldn't find default branch", although the scan with any
    baseline would produce a branch set. *)
Lemma scan_fails_without_default_branch :
  Forall (fun b => branch_upstream b <> None) (local_branches repo_all_upstream) /\
  find_default_sha repo_all_upstream = Err DefaultNotFound /\
  scan_branches stable_sort 1000 repo_all_upstream None All false
    = Err DefaultNotFound /\
  (exists info, scan_with_default stable_sort 1000 repo_all_upstream None All false 0
                = Ok info).
Proof.
  split; [repeat constructor; discriminate|].
  split; [reflexivity|]; split; [reflexivity|].
  eexists; reflexivity.
Qed.

(** Claim C5 (code bug). [find_default_sha] tests
    [starts_with("refs/remotes/origin")], with no trailing slash, so the
    HEAD of a remote named origin2 stops the loop like origin's: with
    origin2 (HEAD -> dev) enumerated before origin (HEAD -> main), dev's
    tip is chosen; with the other order, main's.  Without any origin, the
    same test stops at origin2 instead of taking the last remote HEAD
    (upstream, HEAD -> main). *)
Theorem find_default_sha_origin_prefix :
  find_default_sha repo_origin2_first = peel_id local_dev /\
  find_default_sha repo_origin_first = peel_id local_main /\
  find_default_sha repo_origin2_upstream = peel_id local_dev /\
  peel_id local_dev = Ok 1%N /\ peel_id local_main = Ok 2%N.
Proof. repeat split; reflexivity. Qed.

(** ** Name filtering *)

Lemma prefix_spec (p s : string) :
  String.prefix p s = true <-> exists post, s = p ++ post.
Proof.
  revert s; induction p as [|a p IH]; intros s.
  - split; [intros _; exists s; reflexivity|intros _; destruct s; reflexivity].
  - destruct s as [|b s]; simpl.
    + split; [discriminate|intros [post H]; discriminate].
    + destruct (ascii_dec a b) as [<-|Hab].
      * rewrite IH; split; intros [post H]; exists post;
          [rewrite H; reflexivity|injection H as H; exact H].
      * split; [discriminate|intros [post H]; injection H as H _; congruence].
Qed.

Lemma contains_spec (s p : string) :
  contains s p = true <-> exists pre post, s = pre ++ p ++ post.
Proof.
  induction s as [|c s IH].
  - change (contains EmptyString p) with (String.prefix p EmptyString || false).
    rewrite orb_false_r, prefix_spec; split.
    + intros [post H]; exists EmptyString, post; exact H.
    + intros [pre [post H]]; destruct pre; [exists post; exact H|discriminate].
  - change (contains (String c s) p) with (String.prefix p (String c s) || contains s p).
    rewrite orb_true_iff, prefix_spec, IH; split.
    + intros [[post H] | [pre [post H]]].
      * exists EmptyString, post; exact H.
      * exists (String c pre), post; rewrite H; reflexivity.
    + intros [pre [post H]]; destruct pre as [|d pre].
      * left; exists post; exact H.
      * right; injection H as _ H; exists pre, post; exact H.
Qed.

Lemma forallb_negb {A} (g : A -> bool) (l : list A) :
  forallb (fun x => negb (g x)) l = negb (existsb g l).
Proof. induction l as [|x t IH]; simpl; [reflexivity|]; rewrite IH; destruct (g x); reflexivity. Qed.

(** Claim C6. The name filter keeps a branch iff no BRANCH pattern was
    given or one of the patterns occurs in its name as a contiguous,
    character-for-character (so case-sensitive) substring, anywhere in it. *)
Theorem name_filter_substring (args : list string) (nm : string) :
  name_skipped (maybe_patterns_of_args args) nm = false <->
  (args = [] \/ exists p, In p args /\ exists pre post, nm = pre ++ p ++ post).
Proof.
  destruct args as [|p0 ps].
  - simpl; split; [intros _; left; reflexivity|reflexivity].
  - unfold maybe_patterns_of_args, name_skipped.
    rewrite (forallb_negb (contains nm)), negb_false_iff, existsb_exists.
    split.
    + intros (p & Hin & Hc); right; exists p; split; [exact Hin|].
      apply contains_spec; exact Hc.
    + intros [H | (p & Hin & Hs)]; [discriminate|].
      exists p; split; [exact Hin|apply contains_spec; exact Hs].
Qed.

(** ** Negative timestamps *)

(** Claim C8 fails: in Merged mode the unmerged branch "topic", whose tip
    time is -5, is dropped before the [assert!] and the scan succeeds; in
    All mode the same branch aborts the scan. *)
Lemma negative_time_not_rejected_when_filtered :
  (exists b c, In b (local_branches repo_negative_time) /\
     branch_tip b = Some c /\ (commit_seconds c < 0)%Z) /\
  scan_branches stable_sort 1000 repo_negative_time None Merged false
    = Ok (mkBranchesInfo
            [branch_info 1000 (mkBranch "master" true (Some (commit_at 1 50)) None)
               (commit_at 1 50) 0 None] 1 1) /\
  scan_branches stable_sort 1000 repo_negative_time None All false = Err Panic.
Proof.
  split; [|split; reflexivity].
  exists (mkBranch "topic" false (Some (commit_at 2 (-5))) None), (commit_at 2 (-5)).
  split; [right; left; reflexivity|split; [reflexivity|simpl; lia]].
Qed.

(** ** Sorting *)

Lemma Sorted_impl_in {A} (R S : A -> A -> Prop) (l : list A) :
  (forall x y, In x l -> In y l -> R x y -> S x y) -> Sorted R l -> Sorted S l.
Proof.
  intros HRS Hs; induction Hs as [|x t Ht IH Hh]; constructor.
  - apply IH; intros a b Ha Hb; apply HRS; right; assumption.
  - destruct Hh as [|y t' Hxy]; constructor.
    apply HRS; [left; reflexivity|right; left; reflexivity|exact Hxy].
Qed.

Lemma StronglySorted_impl_in {A} (R S : A -> A -> Prop) (l : list A) :
  (forall x y, In x l -> In y l -> R x y -> S x y) ->
  StronglySorted R l -> StronglySorted S l.
Proof.
  intros HRS Hs; induction Hs as [|x t Ht IH Hf]; constructor.
  - apply IH; intros a b Ha Hb; apply HRS; right; assumption.
  - rewrite Forall_forall in *; intros y Hy.
    apply HRS; [left; reflexivity|right; exact Hy|apply Hf; exact Hy].
Qed.

Lemma key_order (a b : BranchInfo) :
  (timestamp a <= U64_MAX)%N -> (timestamp b <= U64_MAX)%N ->
  ((sort_key a <= sort_key b)%N <-> (timestamp b <= timestamp a)%N) /\
  ((sort_key a < sort_key b)%N <-> (timestamp b < timestamp a)%N).
Proof. unfold sort_key; lia. Qed.

(** A strictly ordered list is the only ordered permutation of itself. *)
Lemma sorted_perm_unique (key : BranchInfo -> N) (l l' : list BranchInfo) :
  StronglySorted (fun a b => (key a < key b)%N) l -> Permutation l l' ->
  StronglySorted (fun a b => (key a <= key b)%N) l' -> l' = l.
Proof.
  revert l'; induction l as [|a t IH]; intros l' Hl Hp Hl'.
  - apply Permutation_nil; exact Hp.
  - destruct l' as [|b t'].
    { apply Permutation_sym, Permutation_nil in Hp; discriminate. }
    apply StronglySorted_inv in Hl as [Ht Ha].
    apply StronglySorted_inv in Hl' as [Ht' Hb].
    assert (a = b) as <-.
    { assert (Hbin : In b (a :: t)) by (apply (Permutation_in b (Permutation_sym Hp)); left; reflexivity).
      assert (Hain : In a (b :: t')) by (apply (Permutation_in a Hp); left; reflexivity).
      destruct Hbin as [-> | Hbin]; [reflexivity|].
      destruct Hain as [-> | Hain]; [reflexivity|].
      rewrite Forall_forall in Ha, Hb.
      specialize (Ha b Hbin); specialize (Hb a Hain); lia. }
    f_equal; apply IH; [exact Ht| |exact Ht'].
    apply Permutation_cons_inv in Hp; exact Hp.
Qed.


Lemma StronglySorted_app_disjoint {A} (R : A -> A -> Prop) (l1 l2 : list A) r :
  (forall x, ~ R x x) -> StronglySorted R (l1 ++ l2) -> In r l1 -> In r l2 -> False.
Proof.
  intros Hirr; induction l1 as [|x t IH]; intros H H1 H2; [exact H1|].
  apply StronglySorted_inv in H as [Ht Hf].
  destruct H1 as [-> | H1]; [|exact (IH Ht H1 H2)].
  rewrite Forall_forall in Hf; apply (Hirr r), Hf, in_or_app; right; exact H2.
Qed.


(** Claim C2, as amended. The ranking sort (mode All, no reversal: only
    [sort_unstable_by_key] acts) returns a permutation of the records,
    ordered by timestamp, most recent first; it promises nothing about the
    order of records with equal timestamps. *)
Theorem rank_branches_sort_order sort l :
  sort_unstable_contract sort ->
  Forall (fun r => (timestamp r <= U64_MAX)%N) l ->
  Permutation l (rank_branches sort All false l) /\
  Sorted (fun a b => (timestamp b <= timestamp a)%N) (rank_branches sort All false l).
Proof.
  intros Hs Hb; unfold rank_branches; simpl.
  destruct (Hs sort_key l) as [Hp Hsorted]; split; [exact Hp|].
  eapply Sorted_impl_in; [|exact Hsorted].
  rewrite Forall_forall in Hb.
  intros x y Hx Hy Hxy.
  apply (Permutation_in x (Permutation_sym Hp)) in Hx.
  apply (Permutation_in y (Permutation_sym Hp)) in Hy.
  apply (key_order x y (Hb x Hx) (Hb y Hy)); exact Hxy.
Qed.

(** Claim C2 fails: [sort_unstable_by_key] may reorder records with equal
    timestamps.  The insertion sort that puts each record after the later
    ones of equal key satisfies the contract and swaps two such records. *)
Lemma ranking_sort_not_stable :
  sort_unstable_contract ties_flipped_sort /\
  timestamp tie_a = timestamp tie_b /\
  rank_branches ties_flipped_sort All false [tie_a; tie_b] = [tie_b; tie_a] /\
  ~ (forall sort, sort_unstable_contract sort ->
       forall l, preserves_tie_order l (rank_branches sort All false l)).
Proof.
  split; [exact ties_flipped_sort_contract|].
  split; [reflexivity|]; split; [reflexivity|].
  intros H.
  destruct (H ties_flipped_sort ties_flipped_sort_contract [tie_a; tie_b]
              0 1 tie_a tie_b) as (i & j & Hij & Hi & Hj);
    try reflexivity; [lia|].
  change (rank_branches ties_flipped_sort All false [tie_a; tie_b])
    with [tie_b; tie_a] in Hi, Hj.
  unfold tie_a, tie_b in Hi, Hj.
  destruct i as [|[|i]]; simpl in Hi; try discriminate;
    [|destruct i; discriminate].
  destruct j as [|[|j]]; simpl in Hj; try discriminate;
    [lia|destruct j; discriminate].
Qed.












(* ------------------------------------------------------------------ *)
(** ** The theorems at concrete inputs *)

Lemma epoch_to_relative_str_units_witness :
  epoch_to_relative_str 5000 (5000 - 90) = relative_label UMin 90 /\
  relative_label UMin 90 = "1 min".
Proof.
  split; [|reflexivity].
  destruct (epoch_to_relative_str_units 5000 90 ltac:(lia)) as [_ H].
  apply H; [lia|]; unfold unit_fits; simpl; split; div_lia.
Defined.

Lemma scan_branches_merge_counts_witness :
  exists info, scan_branches stable_sort 1000 repo_origin2_first None All false = Ok info /\
    (n_merged info + n_unmerged info)%nat = 2%nat.
Proof.
  eexists; split; [reflexivity|].
  destruct (scan_branches_merge_counts stable_sort 1000 repo_origin2_first None All false
              _ eq_refl) as (d & aheads & _ & _ & _ & _ & H).
  rewrite H; reflexivity.
Defined.

Lemma scan_branches_ranking_frame_witness :
  exists info, scan_branches stable_sort 1000 repo_origin2_first None Recent true = Ok info /\
    exists d pre, find_default_sha repo_origin2_first = Ok d /\ incl (branches info) pre.
Proof.
  eexists; split; [reflexivity|].
  destruct (scan_branches_ranking_frame stable_sort 1000 repo_origin2_first None Recent true
              _ stable_sort_contract eq_refl) as (d & pre & Hd & _ & _ & Hincl & _).
  exists d, pre; split; assumption.
Defined.

Lemma scan_branches_timestamps_witness :
  exists info, scan_branches stable_sort 1000 repo_origin2_first None All false = Ok info /\
    forall r, In r (branches info) ->
      exists b c, In b (local_branches repo_origin2_first) /\ branch_tip b = Some c /\
        (0 <= commit_seconds c)%Z /\ Z.of_N (timestamp r) = commit_seconds c.
Proof.
  eexists; split; [reflexivity|].
  destruct (scan_branches_timestamps stable_sort 1000 repo_origin2_first None All false
              _ stable_sort_contract
              ltac:(repeat constructor; intros c Hc; simpl in Hc;
                    injection Hc as <-; simpl; lia)
              eq_refl) as (d & Hd & Hrej & Hts).
  exact Hts.
Defined.

Lemma rank_branches_sort_order_witness :
  Permutation [tie_a; tie_b] (rank_branches stable_sort All false [tie_a; tie_b]) /\
  Sorted (fun a b => (timestamp b <= timestamp a)%N)
    (rank_branches stable_sort All false [tie_a; tie_b]).
Proof.
  apply rank_branches_sort_order; [exact stable_sort_contract|].
  repeat constructor; simpl; unfold U64_MAX; lia.
Defined.


(* ================================================================== *)
(** * Further properties of the code *)

(** ** [count_digits] and the decimal form of a number *)

(** the value of a big-endian digit string read after [acc] *)
Fixpoint dval (d : Decimal.uint) (acc : N) : N :=
  match d with
  | Decimal.Nil => acc
  | Decimal.D0 d => dval d (10 * acc)
  | Decimal.D1 d => dval d (10 * acc + 1)
  | Decimal.D2 d => dval d (10 * acc + 2)
  | Decimal.D3 d => dval d (10 * acc + 3)
  | Decimal.D4 d => dval d (10 * acc + 4)
  | Decimal.D5 d => dval d (10 * acc + 5)
  | Decimal.D6 d => dval d (10 * acc + 6)
  | Decimal.D7 d => dval d (10 * acc + 7)
  | Decimal.D8 d => dval d (10 * acc + 8)
  | Decimal.D9 d => dval d (10 * acc + 9)
  end.

Lemma of_uint_acc_dval (d : Decimal.uint) :
  forall acc, Npos (Pos.of_uint_acc d acc) = dval d (Npos acc).
Proof.
  induction d as [|d IH|d IH|d IH|d IH|d IH|d IH|d IH|d IH|d IH|d IH];
    intros acc; cbn [Pos.of_uint_acc dval]; [reflexivity|..];
    rewrite IH; f_equal; lia.
Qed.

Lemma dval_shift (d : Decimal.uint) :
  forall acc, dval d acc =
    (acc * 10 ^ N.of_nat (String.length (string_of_uint d)) + dval d 0)%N.
Proof.
  induction d as [|d IH|d IH|d IH|d IH|d IH|d IH|d IH|d IH|d IH|d IH];
    intros acc; cbn [dval string_of_uint String.length];
    [lia|..];
    rewrite Nat2N.inj_succ, N.pow_succ_r';
    match goal with
    | |- dval d ?a = (_ + dval d ?b)%N => rewrite (IH a), (IH b)
    end; nia.
Qed.

Lemma dval_bound (d : Decimal.uint) :
  (dval d 0 < 10 ^ N.of_nat (String.length (string_of_uint d)))%N.
Proof.
  induction d as [|d IH|d IH|d IH|d IH|d IH|d IH|d IH|d IH|d IH|d IH];
    cbn [dval string_of_uint String.length]; [simpl; lia|..];
    rewrite Nat2N.inj_succ, N.pow_succ_r', dval_shift; lia.
Qed.

(** a positive number prints with a non-zero leading digit *)
Lemma to_uint_head (n : N) :
  (0 < n)%N -> exists i d, (1 <= i <= 9)%N /\ n = dval d i /\
    String.length (string_of_N n) = S (String.length (string_of_uint d)).
Proof.
  intros Hn; unfold string_of_N.
  pose proof (DecimalN.Unsigned.of_to n) as Ho.
  destruct (N.to_uint n) as [|d|d|d|d|d|d|d|d|d|d] eqn:Hu;
    [cbn in Ho; lia| |..].
  { exfalso; cbn [N.of_uint Pos.of_uint] in Ho.
    change (N.of_uint d = n) in Ho.
    pose proof (DecimalN.Unsigned.to_of d) as Hd; rewrite Ho, Hu in Hd.
    destruct d as [|d'|d'|d'|d'|d'|d'|d'|d'|d'|d'];
      [cbn in Ho; lia|..];
      apply (f_equal Decimal.nb_digits) in Hd;
      match type of Hd with
      | _ = Decimal.nb_digits (Decimal.unorm ?e) =>
          pose proof (DecimalFacts.nb_digits_unorm e ltac:(discriminate))
      end; cbn [Decimal.nb_digits] in *; lia. }
  all: cbn [N.of_uint Pos.of_uint] in Ho; rewrite of_uint_acc_dval in Ho;
    match type of Ho with
    | dval _ ?i = _ => exists i
    end; eexists; split; [lia|split; [symmetry; exact Ho|reflexivity]].
Qed.

Lemma string_of_N_bounds (n : N) :
  (0 < n)%N -> exists m, N.of_nat (String.length (string_of_N n)) = (m + 1)%N /\
    (10 ^ m <= n < 10 ^ (m + 1))%N.
Proof.
  intros Hn; destruct (to_uint_head n Hn) as (i & d & Hi & -> & Hl).
  exists (N.of_nat (String.length (string_of_uint d))); split; [rewrite Hl; lia|].
  rewrite dval_shift; pose proof (dval_bound d).
  rewrite N.pow_add_r, N.pow_1_r; nia.
Qed.

Lemma count_digits_loop_spec (f : nat) :
  forall n i, (n < 10 ^ N.of_nat f)%N ->
  (n = 0 /\ count_digits_loop f n i = i)%N \/
  (exists k, count_digits_loop f n i = i + k + 1 /\ 10 ^ k <= n < 10 ^ (k + 1))%N.
Proof.
  induction f as [|f IH]; intros n i H; cbn [count_digits_loop].
  - left; cbn in H; split; [lia|reflexivity].
  - destruct (0 <? n)%N eqn:E; [apply N.ltb_lt in E|apply N.ltb_ge in E; left; lia].
    right; rewrite Nat2N.inj_succ, N.pow_succ_r' in H.
    assert (H' : (n / 10 < 10 ^ N.of_nat f)%N) by (apply N.Div0.div_lt_upper_bound; lia).
    destruct (IH (n / 10)%N (i + 1)%N H') as [[Hz ->] | (k & -> & Hk)].
    + exists 0%N; rewrite N.add_0_l, N.pow_0_r, N.pow_1_r; split; [lia|div_lia].
    + exists (k + 1)%N; split; [lia|].
      rewrite !N.pow_add_r, N.pow_1_r in *; set (P := (10 ^ k)%N) in *.
      div_lia.
Qed.

Lemma count_digits_spec (n : N) :
  (n = 0 /\ count_digits n = 1)%N \/
  (0 < n /\ exists k, count_digits n = k + 1 /\ 10 ^ k <= n < 10 ^ (k + 1))%N.
Proof.
  unfold count_digits.
  destruct (n <=? 9)%N eqn:E1; [apply N.leb_le in E1|apply N.leb_gt in E1].
  { destruct (N.eq_dec n 0) as [->|Hn]; [left; auto|right].
    split; [lia|exists 0%N; cbn; lia]. }
  destruct (n <=? 99)%N eqn:E2; [apply N.leb_le in E2|apply N.leb_gt in E2].
  { right; split; [lia|exists 1%N; cbn; lia]. }
  right; split; [lia|].
  assert (Hf : (n < 10 ^ N.of_nat (S (N.to_nat (N.log2 n))))%N).
  { rewrite Nat2N.inj_succ, N2Nat.id.
    destruct (N.log2_spec n) as [_ H2]; [lia|].
    eapply N.lt_le_trans; [exact H2|].
    apply N.pow_le_mono_l; lia. }
  destruct (count_digits_loop_spec _ n 0 Hf) as [[Hz _] | (k & -> & Hk)];
    [lia|exists k; split; [lia|exact Hk]].
Qed.

Lemma digits_unique (n a b : N) :
  (10 ^ a <= n < 10 ^ (a + 1))%N -> (10 ^ b <= n < 10 ^ (b + 1))%N -> a = b.
Proof.
  intros Ha Hb.
  destruct (N.lt_trichotomy a b) as [H|[H|H]]; [exfalso| exact H | exfalso].
  - assert (Hp : (10 ^ (a + 1) <= 10 ^ b)%N) by (apply N.pow_le_mono_r; lia); lia.
  - assert (Hp : (10 ^ (b + 1) <= 10 ^ a)%N) by (apply N.pow_le_mono_r; lia); lia.
Qed.

(** the number of decimal digits, as [count_digits] computes it *)
Lemma count_digits_length (n : N) :
  count_digits n = N.of_nat (String.length (string_of_N n)).
Proof.
  destruct (count_digits_spec n) as [[-> ->] | [Hn (k & -> & Hk)]]; [reflexivity|].
  destruct (string_of_N_bounds n Hn) as (m & -> & Hm).
  rewrite (digits_unique n k m Hk Hm); reflexivity.
Qed.

Lemma count_digits_mono (a b : N) :
  (a <= b)%N -> (count_digits a <= count_digits b)%N.
Proof.
  intros Hab.
  destruct (count_digits_spec a) as [[-> ->] | [Ha (k & -> & Hk)]];
    destruct (count_digits_spec b) as [[-> ->] | [Hb (l & -> & Hl)]]; try lia.
  destruct (N.le_gt_cases k l) as [H|H]; [lia|exfalso].
  assert (Hp : (10 ^ (l + 1) <= 10 ^ k)%N) by (apply N.pow_le_mono_r; lia); lia.
Qed.

(** ** Padding and character counts *)

Lemma char_count_app (s t : string) :
  char_count (s ++ t) = (char_count s + char_count t)%nat.
Proof. induction s as [|c s IH]; simpl; [reflexivity|rewrite IH; lia]. Qed.

Lemma string_length_app (s t : string) :
  String.length (s ++ t) = (String.length s + String.length t)%nat.
Proof. induction s as [|c s IH]; simpl; [reflexivity|rewrite IH; reflexivity]. Qed.

Lemma char_count_spaces (k : nat) : char_count (spaces k) = k.
Proof. induction k as [|k IH]; simpl; [reflexivity|rewrite IH; reflexivity]. Qed.

Lemma length_spaces (k : nat) : String.length (spaces k) = k.
Proof. induction k as [|k IH]; simpl; [reflexivity|rewrite IH; reflexivity]. Qed.

Lemma char_count_le (s : string) : (char_count s <= String.length s)%nat.
Proof.
  induction s as [|c s IH]; simpl; [lia|].
  destruct (is_continuation c); simpl; lia.
Qed.

Lemma char_count_digits (u : Decimal.uint) :
  char_count (string_of_uint u) = String.length (string_of_uint u).
Proof.
  induction u as [|u IH|u IH|u IH|u IH|u IH|u IH|u IH|u IH|u IH|u IH];
    cbn [string_of_uint char_count String.length]; try rewrite IH; reflexivity.
Qed.

Lemma in_list_max (x : nat) (l : list nat) : In x l -> (x <= list_max l)%nat.
Proof.
  intros Hx; pose proof (proj1 (list_max_le l (list_max l)) (le_n _)) as H.
  rewrite Forall_forall in H; exact (H x Hx).
Qed.

Lemma pad_left_aligned_width (w : nat) (s : string) :
  (String.length s <= w)%nat -> char_count (pad_left_aligned w s) = w.
Proof.
  intros H; unfold pad_left_aligned; rewrite char_count_app, char_count_spaces.
  pose proof (char_count_le s); lia.
Qed.

Lemma pad_right_aligned_width (w : nat) (s : string) :
  (String.length s <= w)%nat -> char_count (pad_right_aligned w s) = w.
Proof.
  intros H; unfold pad_right_aligned; rewrite char_count_app, char_count_spaces.
  pose proof (char_count_le s); lia.
Qed.

Lemma fmt_plus_width_width (w a : nat) :
  (String.length (string_of_N (N.of_nat a)) < w)%nat ->
  char_count (fmt_plus_width w a) = w.
Proof.
  intros H; unfold fmt_plus_width.
  rewrite char_count_app, char_count_spaces; cbn [String.length char_count String.append].
  unfold string_of_N in *; rewrite char_count_digits; simpl; lia.
Qed.

(** ** Printing the rows *)

Lemma print_rows_no_commits (h : History) (tab : bool) (w : nat * nat * nat)
    (bs : list BranchInfo) :
  print_rows h false tab w bs =
  Ok (map (fun b => (branch_row tab w b ++ upstream_part b) ++ " " ++ summary b) bs).
Proof.
  induction bs as [|b bs IH]; cbn [print_rows]; [reflexivity|].
  rewrite IH; reflexivity.
Qed.

Lemma commit_lines_Ok (h : History) (a : nat) (msg : Oid -> string) (walk : list Oid) :
  forall i, (i <= a)%nat ->
  (forall o, In o walk -> find_commit h o = Some (Some (msg o))) ->
  commit_lines h a i (map Some walk) =
  Ok (map (fun o => commit_line o (msg o)) (firstn (S a - i) walk)).
Proof.
  induction walk as [|o walk IH]; intros i Hi Hc; cbn [map commit_lines].
  - rewrite firstn_nil; reflexivity.
  - cbn [try bind]; rewrite (Hc o (or_introl eq_refl)); cbn [bind].
    destruct (a <=? i)%nat eqn:E; [apply Nat.leb_le in E|apply Nat.leb_gt in E].
    + replace (S a - i)%nat with 1%nat by lia; reflexivity.
    + rewrite IH by (try lia; intros o' Ho'; apply Hc; right; exact Ho').
      replace (S a - i)%nat with (S (S a - S i)) by lia; reflexivity.
Qed.

Lemma print_rows_commits (h : History) (w : nat * nat * nat)
    (walks : Oid -> list Oid) (msg : Oid -> string) (bs : list BranchInfo) :
  (forall b, In b bs -> revwalk_from h (oid b) = Some (map Some (walks (oid b)))) ->
  (forall b o, In b bs -> In o (walks (oid b)) -> find_commit h o = Some (Some (msg o))) ->
  print_rows h true false w bs =
  Ok (flat_map (fun b => (branch_row false w b ++ upstream_part b)
                 :: map (fun o => commit_line o (msg o)) (firstn (S (ahead b)) (walks (oid b))))
        bs).
Proof.
  induction bs as [|b bs IH]; intros Hw Hc; cbn [print_rows]; [reflexivity|].
  unfold branch_lines; cbn [negb].
  rewrite (Hw b (or_introl eq_refl)); cbn [try bind].
  rewrite (commit_lines_Ok h (ahead b) msg _ 0 (Nat.le_0_l _))
    by (intros o Ho; apply (Hc b); [left; reflexivity|exact Ho]).
  cbn [bind]; rewrite IH; [reflexivity| |].
  - intros b' Hb'; apply Hw; right; exact Hb'.
  - intros b' o Hb' Ho; apply (Hc b'); [right; exact Hb'|exact Ho].
Qed.

Lemma commit_lines_prefix (h : History) (a : nat) (pre : list (option Oid)) :
  forall i rest rest', (i <= a)%nat -> List.length pre = (S a - i)%nat ->
  commit_lines h a i (pre ++ rest) = commit_lines h a i (pre ++ rest').
Proof.
  induction pre as [|x pre IH]; intros i rest rest' Hi Hl; cbn [List.length] in Hl;
    [lia|].
  cbn [List.app commit_lines].
  destruct (try x) as [o|e]; cbn [bind]; [|reflexivity].
  destruct (try (find_commit h o)) as [[s|]|e]; cbn [bind]; try reflexivity.
  destruct (a <=? i)%nat eqn:E; [reflexivity|apply Nat.leb_gt in E].
  rewrite (IH (S i) rest rest') by lia; reflexivity.
Qed.

(** ** Strings with a known prefix *)

Lemma prefix_app (p s : string) : String.prefix p (p ++ s) = true.
Proof.
  induction p as [|c p IH]; simpl; [destruct s; reflexivity|].
  destruct (ascii_dec c c) as [_|n]; [exact IH|contradiction n; reflexivity].
Qed.

Lemma substring_all (s : string) : substring 0 (String.length s) s = s.
Proof. induction s as [|c s IH]; simpl; [reflexivity|rewrite IH; reflexivity]. Qed.

Lemma substring_app (p s : string) :
  substring (String.length p) (String.length s) (p ++ s) = s.
Proof. induction p as [|c p IH]; simpl; [apply substring_all|exact IH]. Qed.

(** ** The default branch *)

Lemma select_head_ref_err refs acc e :
  select_head_ref refs acc = Err e -> e = GitError.
Proof.
  revert acc; induction refs as [|mr refs IH]; intros acc H; cbn [select_head_ref] in H;
    [discriminate|].
  destruct mr as [r|]; cbn [try bind] in H; [|injection H as <-; reflexivity].
  destruct (negb (ref_is_remote r)); [eapply IH; exact H|].
  destruct (String.prefix _ _); [discriminate|eapply IH; exact H].
Qed.

Lemma peel_id_err b e : peel_id b = Err e -> e = GitError.
Proof.
  unfold peel_id; destruct (branch_tip b); cbn [try bind];
    [discriminate|intros H; injection H as <-; reflexivity].
Qed.

Lemma fallback_default_not_found repo :
  fallback_default repo = Err DefaultNotFound ->
  find_branch repo "master" = None /\ find_branch repo "main" = None.
Proof.
  unfold fallback_default.
  destruct (find_branch repo "master") as [b|];
    [intros H; apply peel_id_err in H; discriminate|].
  destruct (find_branch repo "main") as [b|];
    [intros H; apply peel_id_err in H; discriminate|auto].
Qed.

Lemma select_head_ref_first_origin (r : RemoteRef) (post : list (option RemoteRef))
    (pre : list (option RemoteRef)) :
  forall acc,
  Forall (fun mr => exists r', mr = Some r' /\
            (ref_is_remote r' = false \/
             String.prefix "refs/remotes/origin" (ref_name r') = false)) pre ->
  ref_is_remote r = true -> String.prefix "refs/remotes/origin" (ref_name r) = true ->
  select_head_ref (pre ++ Some r :: post) acc = Ok (Some r).
Proof.
  induction pre as [|mr pre IH]; intros acc Hpre Hr Ho; cbn [List.app select_head_ref].
  - cbn [try bind]; rewrite Hr; cbn [negb]; rewrite Ho; reflexivity.
  - inversion Hpre as [|? ? (r' & -> & Hr') Hpre']; subst.
    cbn [try bind].
    destruct (ref_is_remote r') eqn:Er; cbn [negb]; [|apply IH; assumption].
    destruct Hr' as [Hr'|Hr']; [discriminate|rewrite Hr'; apply IH; assumption].
Qed.

Lemma hd_error_app_single {A} (l : list A) (x : A) :
  hd_error (l ++ [x]) = match hd_error l with Some y => Some y | None => Some x end.
Proof. destruct l; reflexivity. Qed.

Lemma select_head_ref_no_origin (refs : list RemoteRef) :
  forall acc,
  Forall (fun r => String.prefix "refs/remotes/origin" (ref_name r) = false) refs ->
  select_head_ref (map Some refs) acc =
  Ok (match hd_error (rev (List.filter ref_is_remote refs)) with
      | Some r => Some r
      | None => acc
      end).
Proof.
  induction refs as [|r refs IH]; intros acc Hf; cbn [map select_head_ref].
  - reflexivity.
  - inversion Hf as [|? ? Hr Hf']; subst; cbn [try bind List.filter].
    destruct (ref_is_remote r); cbn [negb].
    + rewrite Hr, IH by exact Hf'; cbn [rev]; rewrite hd_error_app_single.
      destruct (hd_error (rev (List.filter ref_is_remote refs))); reflexivity.
    + apply IH; exact Hf'.
Qed.

(** ** Sizes of the scan's listing *)

Lemma scan_loop_length repo pats filter now d bs :
  forall nm nu acc nm' nu' acc',
  scan_loop repo pats filter now d (nm, nu, acc) bs = Ok (nm', nu', acc') ->
  (nm <= nm')%nat /\ (nu <= nu')%nat /\
  List.length acc' = (List.length acc +
    match filter with
    | Merged => nm' - nm
    | Unmerged => nu' - nu
    | _ => nm' - nm + (nu' - nu)
    end)%nat.
Proof.
  induction bs as [|b bs IH]; intros nm nu acc nm' nu' acc' H;
    cbn [scan_loop] in H.
  - injection H as <- <- <-; destruct filter; lia.
  - destruct (scan_step repo pats filter now d (nm, nu, acc) b)
      as [[[nm1 nu1] acc1]|e] eqn:Hs; cbn [bind] in H; [|discriminate].
    apply IH in H as (H1 & H2 & H3).
    apply scan_step_Ok in Hs
      as [[Hn Est] | [Hn (c & u & s & a & bh & Ht & Hu & Hg & Hst)]].
    + injection Est as -> -> ->; destruct filter; lia.
    + cbv zeta in Hst; rewrite H3.
      destruct (Nat.eqb a 0); destruct filter;
        cbn [merge_filtered BranchFilter_eqb andb orb negb] in Hst;
        first [ injection Hst as -> -> ->
              | destruct Hst as [_ Hst]; injection Hst as -> -> ->;
                rewrite length_app; cbn [List.length] ];
        lia.
Qed.

Lemma rank_branches_length sort filter reverse l :
  sort_unstable_contract sort ->
  List.length (rank_branches sort filter reverse l) =
  if BranchFilter_eqb filter Recent then Nat.min RECENT_N (List.length l)
  else List.length l.
Proof.
  intros Hs; unfold rank_branches.
  destruct (Hs sort_key l) as [Hp _]; apply Permutation_length in Hp.
  destruct reverse; [rewrite length_rev|];
    destruct (BranchFilter_eqb filter Recent);
    rewrite ?length_firstn; lia.
Qed.

(** ** [print_branches] without commits *)

Lemma print_branches_no_commits (h : History) (bs : list BranchInfo) (tab : bool) :
  print_branches h bs false tab =
  Ok (map (fun b => (branch_row tab (column_widths bs) b ++ upstream_part b)
                    ++ " " ++ summary b) bs).
Proof.
  unfold print_branches; destruct bs as [|b bs]; [reflexivity|].
  apply print_rows_no_commits.
Qed.

(** ** The scan's listing *)

Lemma scan_branches_listing_length sort now repo pats filter reverse info :
  sort_unstable_contract sort ->
  scan_branches sort now repo pats filter reverse = Ok info ->
  List.length (branches info) =
  match filter with
  | Recent => Nat.min RECENT_N (n_merged info + n_unmerged info)
  | All => (n_merged info + n_unmerged info)%nat
  | Merged => n_merged info
  | Unmerged => n_unmerged info
  end.
Proof.
  intros Hs H; apply scan_branches_Ok in H as (d & nm & nu & pre & Hd & Hl & ->).
  cbn [branches n_merged n_unmerged]; rewrite rank_branches_length by exact Hs.
  apply scan_loop_length in Hl as (_ & _ & Hlen); cbn [List.length] in Hlen.
  destruct filter; cbn [BranchFilter_eqb]; lia.
Qed.

(* ------------------------------------------------------------------ *)
(** ** Extra properties *)

(** Extra X1. [count_digits n] is the number of digits of the decimal form
    of [n] (the string [format!("{}", n)]): [n < 10 ^ count_digits n], and
    [10 ^ (count_digits n - 1) <= n] unless [n] is 0. *)
Theorem count_digits_decimal (n : N) :
  count_digits n = N.of_nat (String.length (string_of_N n)) /\
  (n < 10 ^ count_digits n)%N /\
  (n = 0 \/ 10 ^ (count_digits n - 1) <= n)%N.
Proof.
  split; [apply count_digits_length|].
  destruct (count_digits_spec n) as [[-> ->] | [Hn (k & -> & Hk)]];
    [split; [reflexivity|left; reflexivity]|].
  rewrite N.add_sub; split; [exact (proj2 Hk)|right; exact (proj1 Hk)].
Qed.

(** Extra X2. In the table [print_branches] prints, the name, age and
    ahead columns are as wide on every row: for each listed branch the
    padded name has [max_name_len] characters, the padded age
    [max_timestamp_len] and the signed ahead count [max_ahead_len + 1],
    so no field overflows its column. *)
Theorem print_branches_columns (branches : list BranchInfo) (b : BranchInfo) :
  In b branches ->
  let '(max_name_len, max_timestamp_len, max_ahead_len) := column_widths branches in
  char_count (pad_left_aligned max_name_len (name b)) = max_name_len /\
  char_count (pad_right_aligned max_timestamp_len (timestamp_rel b)) = max_timestamp_len /\
  char_count (fmt_plus_width (max_ahead_len + 1) (ahead b)) = (max_ahead_len + 1)%nat.
Proof.
  intros Hin; unfold column_widths.
  split; [|split].
  - apply pad_left_aligned_width, in_list_max.
    apply (in_map (fun b => String.length (name b))); exact Hin.
  - apply pad_right_aligned_width, in_list_max.
    apply (in_map (fun b => String.length (timestamp_rel b))); exact Hin.
  - apply fmt_plus_width_width.
    pose proof (in_list_max _ _ (in_map ahead _ _ Hin)) as Hmax.
    pose proof (count_digits_mono (N.of_nat (ahead b))
                  (N.of_nat (list_max (map ahead branches))) ltac:(lia)) as Hmono.
    rewrite !count_digits_length in Hmono; rewrite count_digits_length, Nat2N.id; lia.
Qed.

(** Extra X3. Without commit listing, [print_branches] never fails and
    prints one line per branch, in order: the row, the upstream in
    parentheses when there is one, and the tip's summary. *)
Theorem print_branches_one_line_each (h : History) (branches : list BranchInfo)
    (tab : bool) :
  print_branches h branches false tab =
  Ok (map (fun b => (branch_row tab (column_widths branches) b ++ upstream_part b)
                    ++ " " ++ summary b) branches).
Proof. apply print_branches_no_commits. Qed.

(** Extra X4. With commit listing ([-v]), when every walk and commit can be
    read, [print_listing] prints for each branch its row followed by the
    first [ahead + 1] commits of the topological walk from its tip (all of
    them when the walk is shorter), each as 8 hex digits and the summary. *)
Theorem print_listing_commits (h : History) (branches : list BranchInfo)
    (walks : Oid -> list Oid) (msg : Oid -> string) :
  (forall b, In b branches -> revwalk_from h (oid b) = Some (map Some (walks (oid b)))) ->
  (forall b o, In b branches -> In o (walks (oid b)) ->
     find_commit h o = Some (Some (msg o))) ->
  print_listing h branches true =
  Ok (flat_map (fun b => (branch_row false (column_widths branches) b ++ upstream_part b)
                 :: map (fun o => commit_line o (msg o)) (firstn (S (ahead b)) (walks (oid b))))
        branches).
Proof.
  intros Hw Hc; unfold print_listing, print_branches.
  destruct branches as [|b0 bs]; [reflexivity|].
  apply print_rows_commits; assumption.
Qed.

(** Extra X5. The commit listing of a branch stops after the entry of index
    [ahead]: the entries of the walk after the first [ahead + 1], errors
    included, never change what is printed. *)
Theorem commit_lines_stop_after_ahead (h : History) (a : nat)
    (pre rest rest' : list (option Oid)) :
  List.length pre = S a ->
  commit_lines h a 0 (pre ++ rest) = commit_lines h a 0 (pre ++ rest').
Proof.
  intros Hl; apply commit_lines_prefix; [lia|rewrite Hl; lia].
Qed.

(** Extra X6. When HEAD is the branch [refs/heads/x], [print_human] never
    fails: it prints "On branch x", the banner, one line for each of the
    first [RECENT_N] records (columns sized on those records only) and the
    three summary lines only when some branch is unmerged or more than one
    is merged. *)
Theorem print_human_on_branch (h : History) (info : BranchesInfo) (hd : Head)
    (x : string) :
  head_is_branch hd = true -> head_name hd = Some (LOCAL_BRANCH_REF_PREFIX ++ x) ->
  print_human (Some hd) h info =
  Ok (("On branch " ++ x)%string :: human_banner
      ++ map (fun b => ((branch_row true (column_widths (firstn RECENT_N (branches info))) b
                          ++ upstream_part b) ++ " " ++ summary b)%string)
             (firstn RECENT_N (branches info))
      ++ (if (0 <? n_unmerged info)%nat || (1 <? n_merged info)%nat
          then human_summary info else []))%list.
Proof.
  intros Hb Hn; unfold print_human; cbn [try bind].
  rewrite Hb, Hn, prefix_app; cbn [negb bind].
  rewrite string_length_app,
    (Nat.add_comm (String.length LOCAL_BRANCH_REF_PREFIX)), Nat.add_sub,
    substring_app.
  destruct (List.length (branches info) <? RECENT_N)%nat eqn:E.
  - apply Nat.ltb_lt in E.
    rewrite (firstn_all2 (n := RECENT_N)) by lia.
    rewrite print_branches_no_commits; reflexivity.
  - rewrite print_branches_no_commits; reflexivity.
Qed.

(** Extra X7. [main] shows the human status view exactly when none of
    [-v], [-n], [-a], [-m] and [-u] is given and no BRANCH argument is;
    [-r] plays no part in the choice. *)
Theorem main_human_mode (m : Flags) (args : list string) :
  select_output_mode m (maybe_patterns_of_args args) = Human <->
  flag_verbose m = false /\ flag_name_only m = false /\ flag_all m = false /\
  flag_merged m = false /\ flag_unmerged m = false /\ args = [].
Proof.
  unfold select_output_mode, select_filter, maybe_patterns_of_args.
  destruct m as [[] [] [] [] r []], args; cbn;
    split; intros H; try discriminate;
    repeat match goal with
           | H : _ /\ _ |- _ => destruct H
           end;
    try discriminate; repeat split.
Qed.

(** Extra X8. [find_default_sha] reports "Couldn't find default branch"
    only when the repository has neither a local [master] nor a local
    [main] branch. *)
Theorem find_default_sha_not_found (repo : Repo) :
  find_default_sha repo = Err DefaultNotFound ->
  find_branch repo "master" = None /\ find_branch repo "main" = None.
Proof.
  unfold find_default_sha.
  destruct (select_head_ref (remote_heads repo) None) as [hr|e] eqn:Hs; cbn [bind];
    [|intros H; injection H as He; subst e; apply select_head_ref_err in Hs;
      discriminate].
  destruct hr as [hr|]; [|apply fallback_default_not_found].
  destruct (ref_resolved hr) as [nm|]; cbn [try bind]; [|discriminate].
  destruct (String.length nm <? REMOTES_PREFIX_LEN)%nat; [discriminate|].
  cbv zeta.
  destruct (splitn2 "/" _) as [|x [|br [|z l]]]; try discriminate.
  destruct (find_branch repo br) as [b|];
    [intros H; apply peel_id_err in H; discriminate|apply fallback_default_not_found].
Qed.

(** Extra X9. When the first remote HEAD reference whose name starts with
    "refs/remotes/origin" comes after only non-remote references or remote
    ones without that prefix, and it resolves to [refs/remotes/origin/br]
    with [br] a local branch, the default sha is the tip of the local
    branch [br] ([br] may itself contain slashes). *)
Theorem find_default_sha_origin_head (repo : Repo) (pre post : list (option RemoteRef))
    (r : RemoteRef) (br : string) (b : Branch) :
  remote_heads repo = (pre ++ Some r :: post)%list ->
  Forall (fun mr => exists r', mr = Some r' /\
            (ref_is_remote r' = false \/
             String.prefix "refs/remotes/origin" (ref_name r') = false)) pre ->
  ref_is_remote r = true ->
  String.prefix "refs/remotes/origin" (ref_name r) = true ->
  ref_resolved r = Some ("refs/remotes/origin/" ++ br) ->
  find_branch repo br = Some b ->
  find_default_sha repo = peel_id b.
Proof.
  intros Hh Hpre Hr Ho Hres Hb; unfold find_default_sha; rewrite Hh.
  rewrite (select_head_ref_first_origin r post pre None Hpre Hr Ho); cbn [bind].
  rewrite Hres; cbn [try bind].
  change ("refs/remotes/origin/" ++ br) with ("refs/remotes/" ++ ("origin/" ++ br)).
  unfold REMOTES_PREFIX_LEN; rewrite string_length_app.
  destruct (String.length "refs/remotes/" + String.length ("origin/" ++ br)
              <? String.length "refs/remotes/")%nat eqn:E;
    [apply Nat.ltb_lt in E; lia|].
  rewrite (Nat.add_comm (String.length "refs/remotes/")), Nat.add_sub, substring_app.
  cbv zeta; change (splitn2 "/" ("origin/" ++ br)) with ["origin"; br]; cbv beta iota.
  rewrite Hb; reflexivity.
Qed.

(** Extra X10. When no remote HEAD reference starts with
    "refs/remotes/origin" and none is an error, the loop of
    [find_default_sha] picks the last remote one in enumeration order (and
    none when no reference is remote). *)
Theorem select_head_ref_last_remote (refs : list RemoteRef) :
  Forall (fun r => String.prefix "refs/remotes/origin" (ref_name r) = false) refs ->
  select_head_ref (map Some refs) None =
  Ok (hd_error (rev (List.filter ref_is_remote refs))).
Proof.
  intros Hf; rewrite (select_head_ref_no_origin refs None Hf).
  destruct (hd_error _); reflexivity.
Qed.

(** Extra X11. With [-m] every listed branch has ahead count 0, and with
    [-u] every listed branch has a non-zero ahead count. *)
Theorem scan_branches_merge_filter sort now repo pats filter reverse info :
  sort_unstable_contract sort ->
  scan_branches sort now repo pats filter reverse = Ok info ->
  forall r, In r (branches info) ->
  (filter = Merged -> ahead r = 0%nat) /\ (filter = Unmerged -> ahead r <> 0%nat).
Proof.
  intros Hs H r Hin.
  apply scan_branches_Ok in H as (d & nm & nu & pre & Hd & Hl & ->).
  cbn [branches] in Hin; apply rank_branches_incl in Hin; [|exact Hs].
  apply scan_loop_records in Hl as (added & E & HF); cbn [List.app] in E; subst added.
  rewrite Forall_forall in HF.
  destruct (HF r Hin) as (b & _ & _ & c & u & s & a & _ & _ & _ & Hm & _ & ->).
  cbn [branch_info ahead]; split; intros ->; cbn in Hm;
    destruct a; cbn in Hm; try discriminate; lia.
Qed.

(** Extra X12. The number of listed branches: with [-a] (or [-m -u]) it is
    [n_merged + n_unmerged], with [-m] it is [n_merged], with [-u] it is
    [n_unmerged], and in the default mode the smaller of [RECENT_N] and
    [n_merged + n_unmerged]. *)
Theorem scan_branches_listing_size sort now repo pats filter reverse info :
  sort_unstable_contract sort ->
  scan_branches sort now repo pats filter reverse = Ok info ->
  List.length (branches info) =
  match filter with
  | Recent => Nat.min RECENT_N (n_merged info + n_unmerged info)
  | All => (n_merged info + n_unmerged info)%nat
  | Merged => n_merged info
  | Unmerged => n_unmerged info
  end.
Proof. apply scan_branches_listing_length. Qed.

(** Extra X13. [git bstatus -a] without [-v] or [-n] prints, when it
    succeeds, exactly one line per local branch that passes the BRANCH
    patterns (one per local branch when no pattern is given). *)
Theorem main_all_one_line_per_branch sort now repo head h m args out :
  sort_unstable_contract sort ->
  flag_all m = true -> flag_verbose m = false -> flag_name_only m = false ->
  main sort now repo head h m args = Ok out ->
  List.length out = List.length (name_kept (maybe_patterns_of_args args) (local_branches repo)).
Proof.
  intros Hs Ha Hv Hn; unfold main.
  assert (Hf : select_filter m = All) by (unfold select_filter; rewrite Ha; reflexivity).
  assert (Hmode : select_output_mode m (maybe_patterns_of_args args) = Listing)
    by (unfold select_output_mode; rewrite Hv, Hn, Hf; reflexivity).
  rewrite Hf, Hmode; unfold run.
  destruct (scan_branches sort now repo _ All _) as [info|e] eqn:Hscan; cbn [bind];
    [|discriminate].
  unfold print_listing; rewrite print_branches_no_commits.
  intros H; injection H as <-; rewrite length_map.
  rewrite (scan_branches_listing_length _ _ _ _ _ _ _ Hs Hscan).
  apply scan_branches_Ok in Hscan as (d & nm & nu & pre & Hd & Hl & ->).
  apply scan_loop_counts in Hl as (aheads & HF & -> & ->); cbn [n_merged n_unmerged].
  rewrite (Forall2_length HF); pose proof (count_merged_unmerged aheads); lia.
Qed.

(* ------------------------------------------------------------------ *)
(** ** The extra properties at concrete inputs *)

Lemma print_branches_columns_witness :
  In (mkBranchInfo "feature" false 100 "13 mins" "wip" 12 1 (Some "origin/feature"))
     sample_rows /\
  let '(max_name_len, max_timestamp_len, max_ahead_len) := column_widths sample_rows in
  char_count (pad_left_aligned max_name_len "feature") = max_name_len /\
  char_count (pad_right_aligned max_timestamp_len "13 mins") = max_timestamp_len /\
  char_count (fmt_plus_width (max_ahead_len + 1) 12) = (max_ahead_len + 1)%nat.
Proof.
  split; [right; left; reflexivity|].
  apply (print_branches_columns sample_rows
           (mkBranchInfo "feature" false 100 "13 mins" "wip" 12 1 (Some "origin/feature"))).
  right; left; reflexivity.
Defined.

Lemma print_listing_commits_witness :
  print_listing sample_history sample_rows true =
  Ok (flat_map (fun b => (branch_row false (column_widths sample_rows) b ++ upstream_part b)
                 :: map (fun o => commit_line o "change")
                      (firstn (S (ahead b)) (sample_walk (oid b))))
        sample_rows).
Proof.
  apply (print_listing_commits sample_history sample_rows sample_walk (fun _ => "change")).
  - intros b _; reflexivity.
  - intros b o _ _; reflexivity.
Defined.

Lemma commit_lines_stop_after_ahead_witness :
  commit_lines sample_history 0 0 ([Some 1%N] ++ [None])%list =
  commit_lines sample_history 0 0 ([Some 1%N] ++ [])%list.
Proof. apply commit_lines_stop_after_ahead; reflexivity. Defined.

Lemma print_human_on_branch_witness :
  print_human (Some sample_head) sample_history (mkBranchesInfo sample_rows 1 1) =
  Ok (("On branch " ++ "main")%string :: human_banner
      ++ map (fun b => ((branch_row true (column_widths (firstn RECENT_N sample_rows)) b
                          ++ upstream_part b) ++ " " ++ summary b)%string)
             (firstn RECENT_N sample_rows)
      ++ human_summary (mkBranchesInfo sample_rows 1 1))%list.
Proof.
  apply (print_human_on_branch sample_history (mkBranchesInfo sample_rows 1 1)
           sample_head "main"); reflexivity.
Defined.

Lemma find_default_sha_not_found_witness :
  find_branch repo_empty "master" = None /\ find_branch repo_empty "main" = None.
Proof. apply find_default_sha_not_found; reflexivity. Defined.

Lemma find_default_sha_origin_head_witness :
  find_default_sha repo_origin_first = peel_id local_main.
Proof.
  apply (find_default_sha_origin_head repo_origin_first [] [remote_head "origin2" "dev"]
           (mkRemoteRef ("refs/remotes/" ++ "origin" ++ "/HEAD") true
              (Some ("refs/remotes/" ++ "origin" ++ "/" ++ "main")))
           "main" local_main);
    first [reflexivity | constructor].
Defined.

Lemma select_head_ref_last_remote_witness :
  select_head_ref (map Some refs_no_origin) None =
  Ok (hd_error (rev (List.filter ref_is_remote refs_no_origin))).
Proof. apply select_head_ref_last_remote; repeat constructor. Defined.

Lemma scan_branches_merge_filter_witness :
  exists info, scan_branches stable_sort 1000 repo_origin2_first None Merged false = Ok info /\
    forall r, In r (branches info) ->
      (Merged = Merged -> ahead r = 0%nat) /\ (Merged = Unmerged -> ahead r <> 0%nat).
Proof.
  eexists; split; [reflexivity|].
  intros r Hr.
  exact (scan_branches_merge_filter stable_sort 1000 repo_origin2_first None Merged false
           _ stable_sort_contract eq_refl r Hr).
Defined.

Lemma scan_branches_listing_size_witness :
  exists info, scan_branches stable_sort 1000 repo_origin2_first None Merged false = Ok info /\
    List.length (branches info) = n_merged info.
Proof.
  eexists; split; [reflexivity|].
  exact (scan_branches_listing_size stable_sort 1000 repo_origin2_first None Merged false
           _ stable_sort_contract eq_refl).
Defined.

Lemma main_all_one_line_per_branch_witness :
  exists out, main stable_sort 1000 repo_origin2_first (Some sample_head) sample_history
                flags_all [] = Ok out /\
    List.length out =
    List.length (name_kept (maybe_patterns_of_args []) (local_branches repo_origin2_first)).
Proof.
  eexists; split; [reflexivity|].
  exact (main_all_one_line_per_branch stable_sort 1000 repo_origin2_first (Some sample_head)
           sample_history flags_all [] _ stable_sort_contract eq_refl eq_refl eq_refl eq_refl).
Defined.
